(** * logie: a leveled logger with pooled records

    Shallow embedding of [logie.go] (package [logie]) and the properties of
    its record lifecycle, formatters and level codec.

    Modelling conventions.
    - Go strings and byte slices are [string] (sequences of 8-bit [ascii]).
    - [Level] is a [uint8]; it is modelled as [N], the seven named levels
      being the constants 0..6.
    - [map[K]V] is a [gmap K V]; indexing a missing key yields the zero value.
    - One goroutine runs the calls. The mutex [mu] is a boolean, true when
      held; locking it while it is held blocks the goroutine for ever.
    - Functions of the Go standard library and of jsoniter that the package
      calls but does not define are fields of the class [GoLib]. *)

From Stdlib Require Import ZArith NArith Ascii String List Bool Lia.
From stdpp Require Import base option list strings gmap pretty.

Local Open Scope string_scope.
Local Open Scope N_scope.

(** ** Levels *)

Definition Level : Type := N.

Definition TraceLevel : Level := 0.
Definition DebugLevel : Level := 1.
Definition InfoLevel  : Level := 2.
Definition WarnLevel  : Level := 3.
Definition ErrorLevel : Level := 4.
Definition PanicLevel : Level := 5.
Definition FatalLevel : Level := 6.

(** The seven declared levels, in declaration order. *)
Definition levels : list Level :=
  [TraceLevel; DebugLevel; InfoLevel; WarnLevel; ErrorLevel; PanicLevel; FatalLevel].

Definition LevelMapping : gmap N string :=
  <[TraceLevel := "Trace"]> (
  <[DebugLevel := "Debug"]> (
  <[InfoLevel  := "Info"]> (
  <[WarnLevel  := "Warn"]> (
  <[ErrorLevel := "Error"]> (
  <[PanicLevel := "Panic"]> (
  <[FatalLevel := "Fatal"]> ∅)))))).

(** [LevelMapping[l]]: a Go map read, the empty string for an absent key. *)
Definition LevelName (l : Level) : string := default "" (LevelMapping !! l).

(** ** Go values, errors and the library interface *)

(** A value held by an [interface{}]: what [fmt] and the JSON encoder can
    tell apart. [VOpaque shown] stands for any value of a non-string kind
    (struct, pointer, channel, ...) whose [%v] rendering is [shown]. *)
Inductive Value : Type :=
| VNil
| VBool (b : bool)
| VInt (z : Z)
| VString (s : string)
| VOpaque (shown : string).

(** [errors.New(msg)] and [fmt.Errorf] without [%w]: an error is its message. *)
Inductive error : Type :=
| errorString (msg : string).

Definition Error (err : error) : string :=
  match err with errorString msg => msg end.

(** How a call ends: it returns, it panics with a value ([NilDereference] is
    the runtime error of a call through a nil interface), the process
    exits, or the goroutine blocks for ever in [mu.Lock()]. *)
Inductive PanicValue : Type :=
| PanicString (s : string)
| NilDereference.

Inductive Outcome (A : Type) : Type :=
| Returned (a : A)
| Panicked (v : PanicValue)
| Exited (code : Z)
| Blocked.
Arguments Returned {A} a.
Arguments Panicked {A} v.
Arguments Exited {A} code.
Arguments Blocked {A}.

(** What [runtime.Caller] and [runtime.FuncForPC(pc).Name()] report for one
    stack frame. *)
Record Frame : Type := mkFrame {
  fr_file : string;
  fr_line : Z;
  fr_func : string
}.

(** Library functions the package calls and does not define. *)
Class GoLib : Type := {
  (** [time.Time] and [t.Format(time.RFC3339)] *)
  Time : Type;
  time_zero : Time;
  time_Format_RFC3339 : Time -> string;
  (** [fmt.Sprintf(format, args...)] for a caller-supplied template *)
  fmt_Sprintf : string -> list Value -> string;
  (** the [%q] verb applied to a byte slice *)
  strconv_Quote : string -> string;
  (** [bytes.Map(unicode.ToLower, s)], the slow path of [bytes.ToLower] *)
  bytes_Map_unicode_ToLower : string -> string;
  (** [jsoniter.NewEncoder(buf).Encode(v)]: the bytes appended to [buf] and
      the error returned *)
  jsoniter_Encode : Value -> string * option error;
  jsoniter_EncodeMap : gmap string Value -> string * option error;
  (** the frame the runtime reports for a function of this package, given
      its symbol and the line it is executing (paths depend on the build) *)
  pkg_frame : string -> Z -> Frame
}.

Definition newline : string := String "010"%char EmptyString.

(** *** fmt.Sprint *)

Definition isString (v : Value) : bool :=
  match v with VString _ => true | _ => false end.

(** The [%v] rendering of an operand. *)
Definition fmt_v (v : Value) : string :=
  match v with
  | VNil => "<nil>"
  | VBool true => "true"
  | VBool false => "false"
  | VInt z => pretty z
  | VString s => s
  | VOpaque shown => shown
  end.

(** [doPrint] of package [fmt]: a space is added between two operands when
    neither is a string. *)
Fixpoint doPrint (prevString : bool) (argNum : nat) (a : list Value) : string :=
  match a with
  | [] => ""
  | arg :: rest =>
      let isStr := isString arg in
      (if (0 <? argNum)%nat && negb isStr && negb prevString then " " else "")
        +:+ fmt_v arg +:+ doPrint isStr (S argNum) rest
  end.

Definition fmt_Sprint (a : list Value) : string := doPrint false 0 a.

(** *** strings and bytes helpers *)

(** [s[n:]] *)
Fixpoint string_from (n : nat) (s : string) : string :=
  match n, s with
  | O, _ => s
  | S n', String _ s' => string_from n' s'
  | S _, EmptyString => EmptyString
  end.

Fixpoint LastIndex_scan (substr s : string) (pos found : Z) : Z :=
  let found' := if String.prefix substr s then pos else found in
  match s with
  | EmptyString => found'
  | String _ s' => LastIndex_scan substr s' (pos + 1)%Z found'
  end.

(** [strings.LastIndex(s, substr)]: the last index of [substr], or -1. *)
Definition strings_LastIndex (s substr : string) : Z :=
  LastIndex_scan substr s 0%Z (-1)%Z.

Definition isUpperASCII (c : ascii) : bool :=
  (65 <=? N_of_ascii c) && (N_of_ascii c <=? 90).

Definition toLowerASCII (c : ascii) : ascii :=
  if isUpperASCII c then ascii_of_N (N_of_ascii c + 32) else c.

Fixpoint map_string (f : ascii -> ascii) (s : string) : string :=
  match s with
  | EmptyString => EmptyString
  | String c s' => String (f c) (map_string f s')
  end.

(** First loop of [bytes.ToLower]: stops at the first byte [>= 0x80]. *)
Fixpoint ToLower_scan (s : string) (hasUpper : bool) : bool * bool :=
  match s with
  | EmptyString => (true, hasUpper)
  | String c s' =>
      if 128 <=? N_of_ascii c then (false, hasUpper)
      else ToLower_scan s' (hasUpper || isUpperASCII c)
  end.

Section Lib.
Context `{GoLib}.

Definition bytes_ToLower (s : string) : string :=
  let '(isASCII, hasUpper) := ToLower_scan s false in
  if isASCII then
    if negb hasUpper then s else map_string toLowerASCII s
  else bytes_Map_unicode_ToLower s.

(** ** Level text codec *)

Definition errUnmarshalNilLevel : error :=
  errorString "cannot unmarshal nil *Level".

(** [(l *Level) unmarshalText]: the new value of [*l] and the result. *)
Definition Level_unmarshalText (l : Level) (text : string) : Level * bool :=
  if String.eqb text "trace" || String.eqb text "Trace" then (TraceLevel, true)
  else if String.eqb text "debug" || String.eqb text "Debug" then (DebugLevel, true)
  else if String.eqb text "info" || String.eqb text "Info" then (InfoLevel, true)
  else if String.eqb text "warn" || String.eqb text "Warn" then (WarnLevel, true)
  else if String.eqb text "error" || String.eqb text "Error" then (ErrorLevel, true)
  else if String.eqb text "panic" || String.eqb text "Panic" then (PanicLevel, true)
  else if String.eqb text "fatal" || String.eqb text "Fatal" then (FatalLevel, true)
  else (l, false).

(** [fmt.Errorf("unexpected level: %q", text)] *)
Definition errUnexpectedLevel (text : string) : error :=
  errorString ("unexpected level: " +:+ strconv_Quote text).

(** [(l *Level) UnmarshalText]. The receiver is a pointer: [None] is the
    nil pointer, [Some v] a pointer to a cell holding [v]. Returns the cell
    after the call and the error. *)
Definition Level_UnmarshalText (l : option Level) (text : string)
  : option Level * option error :=
  match l with
  | None => (None, Some errUnmarshalNilLevel)
  | Some v =>
      let '(v1, ok1) := Level_unmarshalText v text in
      if ok1 then (Some v1, None)
      else
        let '(v2, ok2) := Level_unmarshalText v1 (bytes_ToLower text) in
        if ok2 then (Some v2, None)
        else (Some v2, Some (errUnexpectedLevel text))
  end.

(** The decoder in the words of the specification: the names it knows, each
    in its canonical and in its lowercased form, tried on the text as given
    and then on the lowercased text. *)
Definition name_table : list (string * Level) :=
  [("trace", TraceLevel); ("Trace", TraceLevel);
   ("debug", DebugLevel); ("Debug", DebugLevel);
   ("info", InfoLevel); ("Info", InfoLevel);
   ("warn", WarnLevel); ("Warn", WarnLevel);
   ("error", ErrorLevel); ("Error", ErrorLevel);
   ("panic", PanicLevel); ("Panic", PanicLevel);
   ("fatal", FatalLevel); ("Fatal", FatalLevel)].

Definition lookup_name (text : string) : option Level :=
  match List.find (fun p => String.eqb text (fst p)) name_table with
  | Some p => Some (snd p)
  | None => None
  end.

Definition decode_spec (text : string) : option Level :=
  match lookup_name text with
  | Some L => Some L
  | None => lookup_name (bytes_ToLower text)
  end.

(** ** Records *)

Record Entry : Type := mkEntry {
  e_Buf    : string;
  e_Map    : gmap string Value;
  e_Level  : Level;
  e_Time   : Time;
  e_File   : string;
  e_Line   : Z;
  e_Func   : string;
  e_Format : string;
  e_Args   : list Value
}.

Definition set_Buf (b : string) (e : Entry) : Entry :=
  mkEntry b (e_Map e) (e_Level e) (e_Time e) (e_File e) (e_Line e) (e_Func e)
          (e_Format e) (e_Args e).

Definition set_Map (m : gmap string Value) (e : Entry) : Entry :=
  mkEntry (e_Buf e) m (e_Level e) (e_Time e) (e_File e) (e_Line e) (e_Func e)
          (e_Format e) (e_Args e).

Definition set_caller (file : string) (line : Z) (func : string) (e : Entry) : Entry :=
  mkEntry (e_Buf e) (e_Map e) (e_Level e) (e_Time e) file line func
          (e_Format e) (e_Args e).

(** [e.Buf.WriteString(s)] *)
Definition Buf_WriteString (s : string) (e : Entry) : Entry :=
  set_Buf (e_Buf e +:+ s) e.

(** [entry(logger)]: a fresh record, every other field at its zero value. *)
Definition entry : Entry :=
  mkEntry "" ∅ 0 time_zero "" 0%Z "" "" [].

(** The empty template. *)
Definition FmtEmptySeparate : string := "".

(** The message of a record, as both formatters build it:
    [fmt.Sprint(e.Args...)] for the empty template,
    [fmt.Sprintf(e.Format, e.Args...)] otherwise. *)
Definition message (e : Entry) : string :=
  if String.eqb (e_Format e) FmtEmptySeparate then fmt_Sprint (e_Args e)
  else fmt_Sprintf (e_Format e) (e_Args e).

(** ** Formatters *)

Record TextFormatter : Type := mkTextFormatter { text_IgnoreBasicFields : bool }.
Record JSONFormatter : Type := mkJSONFormatter { json_IgnoreBasicFields : bool }.

(** The loop of [TextFormatter.Format] that shortens [e.File]: [i] runs from
    [len(file)-1] down to 1. *)
Fixpoint short_loop (file : string) (i : nat) : string :=
  match i with
  | O => file
  | S j =>
      match String.get i file with
      | Some c => if Ascii.eqb c "/" then string_from (S i) file
                  else short_loop file j
      | None => short_loop file j
      end
  end.

Definition short_of (file : string) : string :=
  short_loop file (String.length file - 1).

(** What [TextFormatter.Format] writes before the message. *)
Definition text_basic (e : Entry) : string :=
  (time_Format_RFC3339 (e_Time e) +:+ " " +:+ LevelName (e_Level e))
  +:+ (if negb (String.eqb (e_File e) "")
       then " " +:+ short_of (e_File e) +:+ ":" +:+ pretty (e_Line e)
       else "")
  +:+ " ".

Definition TextFormatter_Format (f : TextFormatter) (e : Entry)
  : Entry * option error :=
  let e1 :=
    if negb (text_IgnoreBasicFields f) then
      let e := Buf_WriteString
                 (time_Format_RFC3339 (e_Time e) +:+ " " +:+ LevelName (e_Level e)) e in
      let e := if negb (String.eqb (e_File e) "")
               then Buf_WriteString
                      (" " +:+ short_of (e_File e) +:+ ":" +:+ pretty (e_Line e)) e
               else e in
      Buf_WriteString " " e
    else e in
  let e2 :=
    if String.eqb (e_Format e1) FmtEmptySeparate
    then Buf_WriteString (fmt_Sprint (e_Args e1)) e1
    else Buf_WriteString (fmt_Sprintf (e_Format e1) (e_Args e1)) e1 in
  (Buf_WriteString newline e2, None).

(** The loop of [JSONFormatter.Format] over [e.Args]: one encoder call per
    argument, leaving at the first error. *)
Fixpoint encode_args (buf : string) (args : list Value) : string * option error :=
  match args with
  | [] => (buf, None)
  | arg :: rest =>
      let '(out, err) := jsoniter_Encode arg in
      match err with
      | Some er => (buf +:+ out, Some er)
      | None => encode_args (buf +:+ out) rest
      end
  end.

Definition JSONFormatter_Format (f : JSONFormatter) (e : Entry)
  : Entry * option error :=
  if negb (json_IgnoreBasicFields f) then
    let m := <["level" := VString (LevelName (e_Level e))]> (e_Map e) in
    let m := <["time" := VString (time_Format_RFC3339 (e_Time e))]> m in
    let m :=
      if negb (String.eqb (e_File e) "") then
        <["func" := VString (e_Func e)]>
          (<["file" := VString (e_File e +:+ ":" +:+ pretty (e_Line e))]> m)
      else m in
    let m :=
      if String.eqb (e_Format e) FmtEmptySeparate
      then <["message" := VString (fmt_Sprint (e_Args e))]> m
      else <["message" := VString (fmt_Sprintf (e_Format e) (e_Args e))]> m in
    let '(out, err) := jsoniter_EncodeMap m in
    (set_Buf (e_Buf e +:+ out) (set_Map m e), err)
  else if String.eqb (e_Format e) FmtEmptySeparate then
    let '(buf, err) := encode_args (e_Buf e) (e_Args e) in
    (set_Buf buf e, err)
  else
    (Buf_WriteString (fmt_Sprintf (e_Format e) (e_Args e)) e, None).

(** The mapping [JSONFormatter.Format] leaves in [e.Map] and encodes when
    basic fields are included. *)
Definition json_fields (e : Entry) : gmap string Value :=
  let m := <["level" := VString (LevelName (e_Level e))]> (e_Map e) in
  let m := <["time" := VString (time_Format_RFC3339 (e_Time e))]> m in
  let m :=
    if negb (String.eqb (e_File e) "") then
      <["func" := VString (e_Func e)]>
        (<["file" := VString (e_File e +:+ ":" +:+ pretty (e_Line e))]> m)
    else m in
  <["message" := VString (message e)]> m.

(** The [Formatter] interface: the two formatters of the package, or any
    other implementation, which sees the exported fields of the record. *)
Inductive Formatter : Type :=
| Text (f : TextFormatter)
| JSON (f : JSONFormatter)
| Custom (render : Entry -> Entry * option error).

Definition Format (f : Formatter) (e : Entry) : Entry * option error :=
  match f with
  | Text f => TextFormatter_Format f e
  | JSON f => JSONFormatter_Format f e
  | Custom render => render e
  end.

(** ** Options *)

(** An [io.Writer] is identified by a handle; [None] is the nil interface. *)
Abbreviation Writer := nat (only parsing).
Definition os_Stderr : Writer := 2%nat.

Record options : Type := mkOptions {
  position     : option Writer;
  level        : Level;
  stdLevel     : Level;
  formatter    : option Formatter;
  enableCaller : bool
}.

Definition Option : Type := options -> options.

Definition WithPosition (pos : option Writer) : Option :=
  fun o => mkOptions pos (level o) (stdLevel o) (formatter o) (enableCaller o).

Definition WithLevel (lvl : Level) : Option :=
  fun o => mkOptions (position o) lvl (stdLevel o) (formatter o) (enableCaller o).

Definition WithStdLevel (lvl : Level) : Option :=
  fun o => mkOptions (position o) (level o) lvl (formatter o) (enableCaller o).

Definition WithFormatter (fmt : option Formatter) : Option :=
  fun o => mkOptions (position o) (level o) (stdLevel o) fmt (enableCaller o).

Definition WithEnableCaller (caller : bool) : Option :=
  fun o => mkOptions (position o) (level o) (stdLevel o) (formatter o) caller.

(** [for _, opt := range opts { opt(o) }] *)
Definition apply_opts (opts : list Option) (o : options) : options :=
  fold_left (fun o opt => opt o) opts o.

Definition initOptions (opts : list Option) : options :=
  let o := apply_opts opts (mkOptions None 0 0 None false) in
  let o := match position o with
           | None => WithPosition (Some os_Stderr) o
           | Some _ => o
           end in
  match formatter o with
  | None => WithFormatter (Some (Text (mkTextFormatter false))) o
  | Some _ => o
  end.

(** ** Logger, pool and destination *)

(** [mu] tells whether the mutex is held. [entryPool] is the free list of
    the [sync.Pool], most recently released record first. *)
Record Logger : Type := mkLogger {
  opt       : options;
  mu        : bool;
  entryPool : list Entry
}.

Definition New (opts : list Option) : Logger :=
  mkLogger (initOptions opts) false [].

(** The loop of [(l *Logger) SetOptions], which runs with [mu] held. *)
Definition Logger_SetOptions (opts : list Option) (l : Logger) : Logger :=
  mkLogger (apply_opts opts (opt l)) (mu l) (entryPool l).

(** The state a call runs in: the logger and, for every writer, the byte
    strings it has received, one per [Write] call, oldest first. *)
Record World : Type := mkWorld {
  logger : Logger;
  sinks  : gmap nat (list string)
}.

Definition received (w : Writer) (s : World) : list string :=
  default [] (sinks s !! w).

(** What a call observes of its surroundings: [time.Now()] and the stack of
    the goroutine above the function of the package it enters, nearest
    frame first. *)
Record Env : Type := mkEnv {
  now   : Time;
  stack : list Frame
}.

(** Entering a function of the package pushes its frame. *)
Definition enter (symbol : string) (line : Z) (env : Env) : Env :=
  mkEnv (now env) (pkg_frame symbol line :: stack env).

(** [runtime.Caller(skip)] together with [runtime.FuncForPC(pc).Name()]. *)
Definition runtime_Caller (env : Env) (skip : nat) : option Frame :=
  stack env !! skip.

(** ** Calls: state, and how a call ends *)

Definition M (A : Type) : Type := World -> World * Outcome A.

#[global] Instance M_ret : MRet M := fun A a s => (s, Returned a).

#[global] Instance M_bind : MBind M := fun A B k m s =>
  match m s with
  | (s', Returned a) => k a s'
  | (s', Panicked v) => (s', Panicked v)
  | (s', Exited code) => (s', Exited code)
  | (s', Blocked) => (s', Blocked)
  end.

Definition get_opt : M options := fun s => (s, Returned (opt (logger s))).
Definition panic {A} (v : PanicValue) : M A := fun s => (s, Panicked v).
Definition os_Exit {A} (code : Z) : M A := fun s => (s, Exited code).

(** [l.entryPool.Get()]: a pooled record if there is one, else [New()]. *)
Definition Pool_Get : M Entry := fun s =>
  match entryPool (logger s) with
  | e :: rest =>
      (mkWorld (mkLogger (opt (logger s)) (mu (logger s)) rest) (sinks s),
       Returned e)
  | [] => (s, Returned entry)
  end.

Definition Pool_Put (e : Entry) : M unit := fun s =>
  (mkWorld (mkLogger (opt (logger s)) (mu (logger s)) (e :: entryPool (logger s)))
           (sinks s),
   Returned tt).

(** [w.Write(p)] on the destination; count and error are discarded by the
    only caller. *)
Definition Writer_Write (w : Writer) (p : string) : M unit := fun s =>
  (mkWorld (logger s) (<[w := (received w s ++ [p])%list]> (sinks s)), Returned tt).

Definition Logger_entry : M Entry := Pool_Get.

Definition Entry_format (e : Entry) : M Entry :=
  o ← get_opt;
  match formatter o with
  | Some f => mret (fst (Format f e))
  | None => panic NilDereference
  end.

(** [l.mu.Lock()]: blocks when the mutex is held. *)
Definition Mutex_Lock : M unit := fun s =>
  if mu (logger s) then (s, Blocked)
  else (mkWorld (mkLogger (opt (logger s)) true (entryPool (logger s))) (sinks s),
        Returned tt).

(** [l.mu.Unlock()]: unlocking a mutex that is not held is a fatal error of
    the runtime, which ends the process with status 2. *)
Definition Mutex_Unlock : M unit := fun s =>
  if mu (logger s) then
    (mkWorld (mkLogger (opt (logger s)) false (entryPool (logger s))) (sinks s),
     Returned tt)
  else (s, Exited 2).

(** [(e *Entry) writer]: there is no [defer], so a panic of the write
    leaves the mutex held. *)
Definition Entry_writer (e : Entry) : M unit :=
  Mutex_Lock;;
  o ← get_opt;
  match position o with
  | Some w => Writer_Write w (e_Buf e);; Mutex_Unlock
  | None => panic NilDereference
  end.

(** The two assignments of [release]: the per-call fields are zeroed and the
    buffer is reset; [Map], [Level] and [Time] keep their values. *)
Definition reset (e : Entry) : Entry :=
  let e := mkEntry (e_Buf e) (e_Map e) (e_Level e) (e_Time e) "" 0%Z "" "" [] in
  set_Buf "" e.

Definition Entry_release (e : Entry) : M unit :=
  Pool_Put (reset e).

(** The capture step of [write]. *)
Definition capture (env : Env) (e : Entry) : Entry :=
  match runtime_Caller env 2 with
  | None => set_caller "unknown" (e_Line e) "unknown" e
  | Some fr =>
      let func := fr_func fr in
      set_caller (fr_file fr) (fr_line fr)
        (string_from (Z.to_nat (strings_LastIndex func "/" + 1)) func) e
  end.

(** [(e *Entry) write]; [env] is the environment of its caller. *)
(** The four assignments of [write] after the gate. *)
Definition populate (env : Env) (lvl : Level) (format : string)
    (args : list Value) (e : Entry) : Entry :=
  mkEntry (e_Buf e) (e_Map e) lvl (now env) (e_File e) (e_Line e) (e_Func e)
          format args.

Definition Entry_write (e : Entry) (env : Env) (lvl : Level) (format : string)
    (args : list Value) : M unit :=
  let env := enter "Entry.write" 237 env in
  o ← get_opt;
  if lvl <? level o then mret tt
  else
    let e := populate env lvl format args e in
    o ← get_opt;
    let e := if negb (enableCaller o) then capture env e else e in
    e ← Entry_format e;
    Entry_writer e;;
    Entry_release e.

(** [l.entry().write(lvl, format, args...)] issued at [line] of the public
    function [symbol]. *)
Definition log (symbol : string) (line : Z) (env : Env) (lvl : Level)
    (format : string) (args : list Value) : M unit :=
  let env := enter symbol line env in
  e ← Logger_entry;
  Entry_write e env lvl format args.

Definition Logger_Debug (env : Env) (args : list Value) : M unit :=
  log "Logger.Debug" 101 env DebugLevel FmtEmptySeparate args.

Definition Logger_Info (env : Env) (args : list Value) : M unit :=
  log "Logger.Info" 105 env InfoLevel FmtEmptySeparate args.

Definition Logger_Warn (env : Env) (args : list Value) : M unit :=
  log "Logger.Warn" 109 env WarnLevel FmtEmptySeparate args.

Definition Logger_Error (env : Env) (args : list Value) : M unit :=
  log "Logger.Error" 113 env ErrorLevel FmtEmptySeparate args.

Definition Logger_Panic (env : Env) (args : list Value) : M unit :=
  log "Logger.Panic" 117 env PanicLevel FmtEmptySeparate args;;
  panic (PanicString (fmt_Sprint args)).

Definition Logger_Fatal (env : Env) (args : list Value) : M unit :=
  log "Logger.Fatal" 122 env FatalLevel FmtEmptySeparate args;;
  os_Exit 1.

Definition Logger_Debugf (env : Env) (format : string) (args : list Value) : M unit :=
  log "Logger.Debugf" 127 env DebugLevel format args.

Definition Logger_Infof (env : Env) (format : string) (args : list Value) : M unit :=
  log "Logger.Infof" 131 env InfoLevel format args.

Definition Logger_Warnf (env : Env) (format : string) (args : list Value) : M unit :=
  log "Logger.Warnf" 135 env WarnLevel format args.

Definition Logger_Errorf (env : Env) (format : string) (args : list Value) : M unit :=
  log "Logger.Errorf" 139 env ErrorLevel format args.

Definition Logger_Panicf (env : Env) (format : string) (args : list Value) : M unit :=
  log "Logger.Panicf" 143 env PanicLevel format args;;
  panic (PanicString (fmt_Sprintf format args)).

Definition Logger_Fatalf (env : Env) (format : string) (args : list Value) : M unit :=
  log "Logger.Fatalf" 148 env FatalLevel format args;;
  os_Exit 1.

(** [(l *Logger) Write]: the bytes become one string argument. *)
Definition Logger_Write (env : Env) (data : string) : M (Z * option error) :=
  let env := enter "Logger.Write" 92 env in
  e ← Logger_entry;
  o ← get_opt;
  Entry_write e env (stdLevel o) FmtEmptySeparate [VString data];;
  mret (0%Z, None).

(** ** The leveled calls *)

Inductive Call : Type :=
| CDebug (args : list Value)
| CInfo (args : list Value)
| CWarn (args : list Value)
| CError (args : list Value)
| CPanic (args : list Value)
| CFatal (args : list Value)
| CDebugf (format : string) (args : list Value)
| CInfof (format : string) (args : list Value)
| CWarnf (format : string) (args : list Value)
| CErrorf (format : string) (args : list Value)
| CPanicf (format : string) (args : list Value)
| CFatalf (format : string) (args : list Value).

Definition severity (c : Call) : Level :=
  match c with
  | CDebug _ | CDebugf _ _ => DebugLevel
  | CInfo _ | CInfof _ _ => InfoLevel
  | CWarn _ | CWarnf _ _ => WarnLevel
  | CError _ | CErrorf _ _ => ErrorLevel
  | CPanic _ | CPanicf _ _ => PanicLevel
  | CFatal _ | CFatalf _ _ => FatalLevel
  end.

Definition template (c : Call) : string :=
  match c with
  | CDebug _ | CInfo _ | CWarn _ | CError _ | CPanic _ | CFatal _ => FmtEmptySeparate
  | CDebugf f _ | CInfof f _ | CWarnf f _ | CErrorf f _ | CPanicf f _
  | CFatalf f _ => f
  end.

Definition arguments (c : Call) : list Value :=
  match c with
  | CDebug a | CInfo a | CWarn a | CError a | CPanic a | CFatal a => a
  | CDebugf _ a | CInfof _ a | CWarnf _ a | CErrorf _ a | CPanicf _ a
  | CFatalf _ a => a
  end.

Definition run (c : Call) (env : Env) : M unit :=
  match c with
  | CDebug a => Logger_Debug env a
  | CInfo a => Logger_Info env a
  | CWarn a => Logger_Warn env a
  | CError a => Logger_Error env a
  | CPanic a => Logger_Panic env a
  | CFatal a => Logger_Fatal env a
  | CDebugf f a => Logger_Debugf env f a
  | CInfof f a => Logger_Infof env f a
  | CWarnf f a => Logger_Warnf env f a
  | CErrorf f a => Logger_Errorf env f a
  | CPanicf f a => Logger_Panicf env f a
  | CFatalf f a => Logger_Fatalf env f a
  end.

(** Where a call enters [write]: the public function and the line of its
    [l.entry().write(...)]. *)
Definition entry_point (c : Call) : string * Z :=
  match c with
  | CDebug _ => ("Logger.Debug", 101%Z)
  | CInfo _ => ("Logger.Info", 105%Z)
  | CWarn _ => ("Logger.Warn", 109%Z)
  | CError _ => ("Logger.Error", 113%Z)
  | CPanic _ => ("Logger.Panic", 117%Z)
  | CFatal _ => ("Logger.Fatal", 122%Z)
  | CDebugf _ _ => ("Logger.Debugf", 127%Z)
  | CInfof _ _ => ("Logger.Infof", 131%Z)
  | CWarnf _ _ => ("Logger.Warnf", 135%Z)
  | CErrorf _ _ => ("Logger.Errorf", 139%Z)
  | CPanicf _ _ => ("Logger.Panicf", 143%Z)
  | CFatalf _ _ => ("Logger.Fatalf", 148%Z)
  end.

(** What follows [write] in the public function. *)
Definition ending (c : Call) : Outcome unit :=
  match c with
  | CPanic a => Panicked (PanicString (fmt_Sprint a))
  | CPanicf f a => Panicked (PanicString (fmt_Sprintf f a))
  | CFatal _ | CFatalf _ _ => Exited 1
  | _ => Returned tt
  end.

(** ** Vocabulary of the properties *)

(** The record a call acquires in state [s]. *)
Definition acquired (s : World) : Entry :=
  match entryPool (logger s) with
  | e :: _ => e
  | [] => entry
  end.

(** The record [write] hands to the formatter when the call passes the
    gate; [env] is the environment of [write]'s caller. *)
Definition staged (o : options) (env : Env) (lvl : Level) (format : string)
    (args : list Value) (e : Entry) : Entry :=
  let env := enter "Entry.write" 237 env in
  let e := populate env lvl format args e in
  if negb (enableCaller o) then capture env e else e.

(** Both interface fields of the options are set. *)
Definition ready (o : options) : Prop :=
  is_Some (position o) /\ is_Some (formatter o).

(** A record as it must be in the pool: nothing of a previous call in the
    buffer or in the per-call fields. *)
Definition clean (e : Entry) : Prop :=
  e_Buf e = "" /\ e_Args e = [] /\ e_File e = "" /\ e_Line e = 0%Z /\
  e_Func e = "" /\ e_Format e = "".

End Lib.

(** ** The package-level functions and a client's operations *)

Section Package.
Context `{GoLib}.

(** The package-level functions act on the default logger [std]; here the
    logger of the state is [std]. *)
Definition std_Debug (env : Env) (args : list Value) : M unit :=
  log "Debug" 154 env DebugLevel FmtEmptySeparate args.

Definition std_Info (env : Env) (args : list Value) : M unit :=
  log "Info" 158 env InfoLevel FmtEmptySeparate args.

Definition std_Warn (env : Env) (args : list Value) : M unit :=
  log "Warn" 162 env WarnLevel FmtEmptySeparate args.

Definition std_Error (env : Env) (args : list Value) : M unit :=
  log "Error" 166 env ErrorLevel FmtEmptySeparate args.

Definition std_Panic (env : Env) (args : list Value) : M unit :=
  log "Panic" 170 env PanicLevel FmtEmptySeparate args;;
  panic (PanicString (fmt_Sprint args)).

Definition std_Fatal (env : Env) (args : list Value) : M unit :=
  log "Fatal" 175 env FatalLevel FmtEmptySeparate args;;
  os_Exit 1.

Definition std_Debugf (env : Env) (format : string) (args : list Value) : M unit :=
  log "Debugf" 180 env DebugLevel format args.

Definition std_Infof (env : Env) (format : string) (args : list Value) : M unit :=
  log "Infof" 184 env InfoLevel format args.

Definition std_Warnf (env : Env) (format : string) (args : list Value) : M unit :=
  log "Warnf" 188 env WarnLevel format args.

Definition std_Errorf (env : Env) (format : string) (args : list Value) : M unit :=
  log "Errorf" 192 env ErrorLevel format args.

Definition std_Panicf (env : Env) (format : string) (args : list Value) : M unit :=
  log "Panicf" 196 env PanicLevel format args;;
  panic (PanicString (fmt_Sprintf format args)).

Definition std_Fatalf (env : Env) (format : string) (args : list Value) : M unit :=
  log "Fatalf" 201 env FatalLevel format args;;
  os_Exit 1.

Definition std_run (c : Call) (env : Env) : M unit :=
  match c with
  | CDebug a => std_Debug env a
  | CInfo a => std_Info env a
  | CWarn a => std_Warn env a
  | CError a => std_Error env a
  | CPanic a => std_Panic env a
  | CFatal a => std_Fatal env a
  | CDebugf f a => std_Debugf env f a
  | CInfof f a => std_Infof env f a
  | CWarnf f a => std_Warnf env f a
  | CErrorf f a => std_Errorf env f a
  | CPanicf f a => std_Panicf env f a
  | CFatalf f a => std_Fatalf env f a
  end.

(** [(l *Logger) SetOptions] as a step of the state: lock, apply the
    options, unlock. *)
Definition SetOptions (opts : list Option) : M unit :=
  Mutex_Lock;;
  (fun s => (mkWorld (Logger_SetOptions opts (logger s)) (sinks s), Returned tt));;
  Mutex_Unlock.

(** What a client does with a logger. *)
Inductive Op : Type :=
| OpCall (c : Call) (env : Env)
| OpWrite (env : Env) (data : string)
| OpSetOptions (opts : list Option).

Definition perform (op : Op) : M unit :=
  match op with
  | OpCall c env => run c env
  | OpWrite env data => Logger_Write env data;; mret tt
  | OpSetOptions opts => SetOptions opts
  end.

(** A run of the client: the operations in order. A panic is taken to be
    recovered by the client, which goes on; a process exit ends the run, and
    so does a call that blocks. *)
Fixpoint perform_all (ops : list Op) (s : World) : World :=
  match ops with
  | [] => s
  | op :: rest =>
      match perform op s with
      | (s', Exited _) => s'
      | (s', Blocked) => s'
      | (s', _) => perform_all rest s'
      end
  end.

(** What holds of every state of a run: pooled records are clean, there is
    at most one, and the mutex is held only when the destination is nil. *)
Definition sound (s : World) : Prop :=
  Forall clean (entryPool (logger s)) /\
  (length (entryPool (logger s)) <= 1)%nat /\
  (mu (logger s) = true -> position (opt (logger s)) = None).

(** The options as the program text writes them down. *)
Definition zero_options : options := mkOptions None 0 0 None false.

(** What the text formatter shows of the call site for a call entered
    through a public function with environment [env]. *)
Definition call_site (o : options) (env : Env) : string :=
  if enableCaller o then ""
  else
    match stack env with
    | fr :: _ =>
        if String.eqb (fr_file fr) "" then ""
        else " " +:+ short_of (fr_file fr) +:+ ":" +:+ pretty (fr_line fr)
    | [] => " unknown:0"
    end.

(** The record [write] hands to the formatter when the record it acquired
    is clean: empty buffer, the mapping [m] the acquired record carried, and
    otherwise only what this call and its environment supply. *)
Definition call_record (o : options) (env : Env) (lvl : Level) (format : string)
    (args : list Value) (m : gmap string Value) : Entry :=
  staged o env lvl format args (mkEntry "" m 0 time_zero "" 0%Z "" "" []).

(** The arguments the loop of the JSON formatter hands to the encoder: all
    up to and including the first one whose encoding fails. *)
Fixpoint encoded_prefix (args : list Value) : list Value :=
  match args with
  | [] => []
  | a :: rest =>
      match snd (jsoniter_Encode a) with
      | Some _ => [a]
      | None => a :: encoded_prefix rest
      end
  end.

(** The error of the first argument whose encoding fails, if any. *)
Fixpoint first_error (args : list Value) : option error :=
  match args with
  | [] => None
  | a :: rest =>
      match snd (jsoniter_Encode a) with
      | Some er => Some er
      | None => first_error rest
      end
  end.

(** The message of a call. *)
Definition call_message (c : Call) : string :=
  if String.eqb (template c) FmtEmptySeparate then fmt_Sprint (arguments c)
  else fmt_Sprintf (template c) (arguments c).

End Package.

(** No byte of [s] from index [from] on is a slash. *)
Definition no_slash_from (from : nat) (s : string) : Prop :=
  forall j, (from <= j)%nat -> String.get j s <> Some "/"%char.

Definition is_suffix (t s : string) : Prop :=
  exists pre, s = pre +:+ t.

(** Number of newline bytes at the end of a string. *)
Fixpoint trailing_newlines (s : string) : nat :=
  match s with
  | EmptyString => O
  | String c s' =>
      let n := trailing_newlines s' in
      if Nat.eqb n (String.length s') && Ascii.eqb c "010" then S n else n
  end.

Fixpoint all_ascii (s : string) : bool :=
  match s with
  | EmptyString => true
  | String c s' => (N_of_ascii c <? 128) && all_ascii s'
  end.

Fixpoint has_upper (s : string) : bool :=
  match s with
  | EmptyString => false
  | String c s' => isUpperASCII c || has_upper s'
  end.

Fixpoint concat_all (l : list string) : string :=
  match l with
  | [] => ""
  | x :: rest => x +:+ concat_all rest
  end.

Definition is_substring (m s : string) : Prop :=
  exists a b, s = a +:+ m +:+ b.

(** [s] is [name] up to the case of ASCII letters. *)
Definition casing_of (name s : string) : bool :=
  String.eqb (map_string toLowerASCII s) (map_string toLowerASCII name).

(** ** A sample library

    Stand-ins for the library functions, used to run the model on concrete
    inputs. Each agrees with Go on the inputs named in its comment. *)

Definition dquote : string := String "034"%char EmptyString.

(** JSON text of a value; strings without characters that need escaping. *)
Definition sample_json (v : Value) : option string :=
  match v with
  | VNil => Some "null"
  | VBool true => Some "true"
  | VBool false => Some "false"
  | VInt z => Some (pretty z)
  | VString s => Some (dquote +:+ s +:+ dquote)
  | VOpaque _ => None
  end.

(** The encoder writes the value and a newline, or nothing and an error for
    a value of an unsupported type (a channel, a function). *)
Definition sample_Encode (v : Value) : string * option error :=
  match sample_json v with
  | Some js => (js +:+ newline, None)
  | None => ("", Some (errorString "unsupported type"))
  end.

Definition sample_member (kv : string * Value) : string :=
  dquote +:+ fst kv +:+ dquote +:+ ":" +:+ default "null" (sample_json (snd kv)).

Fixpoint sample_join (l : list string) : string :=
  match l with
  | [] => ""
  | [x] => x
  | x :: rest => x +:+ "," +:+ sample_join rest
  end.

Definition sample_EncodeMap (m : gmap string Value) : string * option error :=
  ("{" +:+ sample_join (sample_member <$> map_to_list m) +:+ "}" +:+ newline, None).

Definition sampleLib : GoLib := {|
  (* seconds since the epoch, printed in decimal *)
  Time := Z;
  time_zero := 0%Z;
  time_Format_RFC3339 := fun t => pretty t;
  (* templates without verbs, no operands *)
  fmt_Sprintf := fun format _ => format;
  (* printable ASCII without quotes and backslashes *)
  strconv_Quote := fun s => dquote +:+ s +:+ dquote;
  bytes_Map_unicode_ToLower := map_string toLowerASCII;
  jsoniter_Encode := sample_Encode;
  jsoniter_EncodeMap := sample_EncodeMap;
  pkg_frame := fun symbol line => mkFrame "logie.go" line ("github.com/i0Ek3/logie." +:+ symbol)
|}.

(** Sample inputs: an environment with an empty stack above the call, one
    with a caller at line 10 of [main.go], and three populated records. *)
Definition quiet : @Env sampleLib := @mkEnv sampleLib 0%Z [].

Definition from_main : @Env sampleLib :=
  @mkEnv sampleLib 0%Z [mkFrame "/src/app/main.go" 10 "example.com/app/main.run"].

Definition text : @Formatter sampleLib := Text (mkTextFormatter false).

Definition hello : @Entry sampleLib :=
  @mkEntry sampleLib "" ∅ InfoLevel 0%Z "" 0%Z "" "" [VString "hello"].

Definition two_args : @Entry sampleLib :=
  @mkEntry sampleLib "" ∅ InfoLevel 0%Z "" 0%Z "" "" [VString "a"; VInt 1].

Definition templated : @Entry sampleLib :=
  @mkEntry sampleLib "" ∅ InfoLevel 0%Z "" 0%Z "" "done" [].

Definition newline_ended : @Entry sampleLib :=
  @mkEntry sampleLib "" ∅ InfoLevel 0%Z "" 0%Z "" "" [VString ("x" +:+ newline)].

(** Further sample inputs: a logger fresh from [New], one whose formatter
    was then set to nil, two formatters that differ in the error they
    return, a record with a call site and one with an argument the sample
    encoder rejects. *)
Definition fresh : @World sampleLib := mkWorld (@New sampleLib []) ∅.

Definition unformatted : @World sampleLib :=
  fst (@SetOptions sampleLib [WithFormatter None] fresh).

Definition undirected : @World sampleLib :=
  fst (@SetOptions sampleLib [WithPosition None] fresh).

(** A logger with threshold Info that has served one call from [main.go]. *)
Definition served : @World sampleLib :=
  @perform_all sampleLib [OpCall (CInfo [VString "first"]) from_main]
    (mkWorld (@New sampleLib [WithLevel InfoLevel]) ∅).

Definition silent : @Formatter sampleLib :=
  Custom (fun e => (Buf_WriteString "x" e, None)).

Definition erring : @Formatter sampleLib :=
  Custom (fun e => (Buf_WriteString "x" e, Some (errorString "render failed"))).

Definition sited : @Entry sampleLib :=
  @mkEntry sampleLib "" ∅ InfoLevel 0%Z "/src/app/main.go" 10%Z "main.run" ""
           [VString "a"].

Definition with_channel : @Entry sampleLib :=
  @mkEntry sampleLib "" ∅ InfoLevel 0%Z "" 0%Z "" ""
           [VString "a"; VOpaque "0xc000012345"; VString "b"].

(** * Properties *)

Lemma LevelName_Info : LevelName InfoLevel = "Info".
Proof. vm_compute. reflexivity. Qed.

(** ** The call pipeline *)

Section Pipeline.
Context `{GoLib}.

Ltac run_call :=
  unfold log, Logger_entry, Pool_Get, Entry_write, Entry_format, Entry_writer,
    Entry_release, Pool_Put, Writer_Write, Mutex_Lock, Mutex_Unlock, get_opt,
    panic, os_Exit, mbind, M_bind, mret, M_ret; simpl.

(** Below the threshold [write] returns at its first statement: the state
    changes only by the record taken from the pool. *)
Lemma log_gated symbol line env lvl format args s :
  lvl < level (opt (logger s)) ->
  log symbol line env lvl format args s =
    (mkWorld (mkLogger (opt (logger s)) (mu (logger s))
                       (tail (entryPool (logger s)))) (sinks s),
     Returned tt).
Proof.
  intros Hlt. apply N.ltb_lt in Hlt.
  destruct s as [[o m pool] snk]; simpl in *.
  run_call. destruct pool as [|e rest]; simpl; rewrite Hlt; reflexivity.
Qed.

(** At or above the threshold, with the mutex free, the staged record is
    formatted, its buffer is written once to the destination under the
    mutex, and the record is reset and pooled. *)
Lemma log_passed symbol line env lvl format args s w f :
  mu (logger s) = false ->
  level (opt (logger s)) <= lvl ->
  position (opt (logger s)) = Some w ->
  formatter (opt (logger s)) = Some f ->
  log symbol line env lvl format args s =
    let e := fst (Format f (staged (opt (logger s)) (enter symbol line env)
                              lvl format args (acquired s))) in
    (mkWorld (mkLogger (opt (logger s)) false
                       (reset e :: tail (entryPool (logger s))))
             (<[w := (received w s ++ [e_Buf e])%list]> (sinks s)),
     Returned tt).
Proof.
  intros Hmu Hle Hw Hf. apply N.ltb_ge in Hle.
  destruct s as [[o m pool] snk]; simpl in *. subst m.
  run_call. unfold acquired, staged, received.
  destruct pool as [|e rest]; cbn; rewrite Hle; cbn; rewrite Hf; cbn; rewrite Hw; reflexivity.
Qed.

(** At or above the threshold with the mutex held, the call formats and
    then blocks in [writer]: nothing is written, the record stays out of
    the pool. *)
Lemma log_blocked symbol line env lvl format args s f :
  mu (logger s) = true ->
  level (opt (logger s)) <= lvl ->
  formatter (opt (logger s)) = Some f ->
  log symbol line env lvl format args s =
    (mkWorld (mkLogger (opt (logger s)) true (tail (entryPool (logger s))))
             (sinks s),
     Blocked).
Proof.
  intros Hmu Hle Hf. apply N.ltb_ge in Hle.
  destruct s as [[o m pool] snk]; simpl in *. subst m.
  run_call.
  destruct pool as [|e rest]; cbn; rewrite Hle; cbn; rewrite Hf; reflexivity.
Qed.

(** Capture changes file, line and function only. *)
Lemma message_staged o env lvl format args e :
  message (staged o env lvl format args e) =
    if String.eqb format FmtEmptySeparate then fmt_Sprint args
    else fmt_Sprintf format args.
Proof.
  unfold staged, message.
  destruct (negb (enableCaller o));
    [unfold capture; destruct (runtime_Caller _ 2)|]; reflexivity.
Qed.

Lemma run_log c env s :
  run c env s =
    match log (fst (entry_point c)) (snd (entry_point c)) env (severity c)
              (template c) (arguments c) s with
    | (s', Returned _) => (s', ending c)
    | (s', Panicked v) => (s', Panicked v)
    | (s', Exited code) => (s', Exited code)
    | (s', Blocked) => (s', Blocked)
    end.
Proof.
  destruct c; cbn [run entry_point severity template arguments ending fst snd];
    unfold Logger_Debug, Logger_Info, Logger_Warn, Logger_Error, Logger_Panic,
      Logger_Fatal, Logger_Debugf, Logger_Infof, Logger_Warnf, Logger_Errorf,
      Logger_Panicf, Logger_Fatalf;
    try (unfold mbind, M_bind, panic, os_Exit; reflexivity);
    match goal with
    | |- ?m s = _ => destruct (m s) as [s' [[] | v | code |]]; reflexivity
    end.
Qed.

Lemma run_gated c env s :
  severity c < level (opt (logger s)) ->
  run c env s =
    (mkWorld (mkLogger (opt (logger s)) (mu (logger s))
                       (tail (entryPool (logger s)))) (sinks s),
     ending c).
Proof.
  intros Hlt. rewrite run_log, log_gated by exact Hlt. reflexivity.
Qed.

Lemma run_passed c env s w f :
  mu (logger s) = false ->
  level (opt (logger s)) <= severity c ->
  position (opt (logger s)) = Some w ->
  formatter (opt (logger s)) = Some f ->
  run c env s =
    let e := fst (Format f (staged (opt (logger s))
                              (enter (fst (entry_point c)) (snd (entry_point c)) env)
                              (severity c) (template c) (arguments c) (acquired s))) in
    (mkWorld (mkLogger (opt (logger s)) false
                       (reset e :: tail (entryPool (logger s))))
             (<[w := (received w s ++ [e_Buf e])%list]> (sinks s)),
     ending c).
Proof.
  intros Hmu Hle Hw Hf.
  rewrite run_log, (log_passed _ _ _ _ _ _ _ w f) by assumption.
  reflexivity.
Qed.

Lemma received_insert_eq w l s lg :
  received w (mkWorld lg (<[w := l]> (sinks s))) = l.
Proof. unfold received; cbn. rewrite lookup_insert_eq. reflexivity. Qed.

Lemma received_insert_ne w w' l s lg :
  w <> w' -> received w' (mkWorld lg (<[w := l]> (sinks s))) = received w' s.
Proof. intros Hne. unfold received; cbn. rewrite lookup_insert_ne by exact Hne. reflexivity. Qed.

End Pipeline.

(** ** Severity gate and destination *)

Section Gate.
Context `{GoLib}.

(** From any state with the mutex free: a leveled call below the configured
    minimum leaves every sink as it was; one at or above the minimum makes
    the destination receive exactly one more write, the buffer the formatter
    leaves for the staged record, and no other sink changes. *)
Lemma run_destination (c : Call) env s w f :
  mu (logger s) = false ->
  position (opt (logger s)) = Some w ->
  formatter (opt (logger s)) = Some f ->
  let s' := fst (run c env s) in
  let rendered :=
    e_Buf (fst (Format f (staged (opt (logger s))
                            (enter (fst (entry_point c)) (snd (entry_point c)) env)
                            (severity c) (template c) (arguments c) (acquired s)))) in
  (severity c < level (opt (logger s)) -> sinks s' = sinks s) /\
  (level (opt (logger s)) <= severity c ->
     received w s' = (received w s ++ [rendered])%list /\
     forall w', w <> w' -> received w' s' = received w' s).
Proof.
  intros Hmu Hw Hf; cbn zeta. split.
  - intros Hlt. rewrite run_gated by exact Hlt. reflexivity.
  - intros Hle. rewrite (run_passed c env s w f) by assumption. cbn [fst]. split.
    + apply received_insert_eq.
    + intros w' Hne. apply received_insert_ne. exact Hne.
Qed.

(** The same call never touches the options, whatever the gate decides. *)
Lemma run_keeps_options (c : Call) env s :
  mu (logger s) = false ->
  ready (opt (logger s)) -> opt (logger (fst (run c env s))) = opt (logger s).
Proof.
  intros Hmu [[w Hw] [f Hf]].
  destruct (N.lt_ge_cases (severity c) (level (opt (logger s)))) as [Hlt|Hle].
  - rewrite run_gated by exact Hlt. reflexivity.
  - rewrite (run_passed c env s w f) by assumption. reflexivity.
Qed.

(** C9, as amended. A Panic call and a Panicf call always end in a panic
    whose value is [fmt.Sprint(args...)], respectively
    [fmt.Sprintf(format, args...)], and never in a process exit. When the
    configured minimum is at most Panic the destination has received the
    rendered line, whose message is that value (for Panicf when the template
    is not empty); when the minimum is above Panic nothing is written and the
    panic is raised all the same. The mutex is free when the call starts, as
    it is in every state a run reaches with a destination set. *)
Theorem panic_call_raises env s w f args format :
  mu (logger s) = false ->
  position (opt (logger s)) = Some w ->
  formatter (opt (logger s)) = Some f ->
  let r := Logger_Panic env args s in
  let rf := Logger_Panicf env format args s in
  (snd r = Panicked (PanicString (fmt_Sprint args)) /\
   snd rf = Panicked (PanicString (fmt_Sprintf format args))) /\
  (level (opt (logger s)) <= PanicLevel ->
     let e := staged (opt (logger s)) (enter "Logger.Panic" 117 env)
                PanicLevel FmtEmptySeparate args (acquired s) in
     let ef := staged (opt (logger s)) (enter "Logger.Panicf" 143 env)
                 PanicLevel format args (acquired s) in
     received w (fst r) = (received w s ++ [e_Buf (fst (Format f e))])%list /\
     received w (fst rf) = (received w s ++ [e_Buf (fst (Format f ef))])%list /\
     message e = fmt_Sprint args /\
     (format <> FmtEmptySeparate -> message ef = fmt_Sprintf format args)) /\
  (PanicLevel < level (opt (logger s)) ->
     sinks (fst r) = sinks s /\ sinks (fst rf) = sinks s).
Proof.
  intros Hmu Hw Hf; cbn zeta.
  change (Logger_Panic env args) with (run (CPanic args) env).
  change (Logger_Panicf env format args) with (run (CPanicf format args) env).
  destruct (N.lt_ge_cases PanicLevel (level (opt (logger s)))) as [Hlt|Hle].
  - rewrite !run_gated by exact Hlt. cbn [fst snd ending].
    split; [split; reflexivity|]. split; [intros Hle; lia|].
    intros _. split; reflexivity.
  - rewrite (run_passed (CPanic args) env s w f),
            (run_passed (CPanicf format args) env s w f) by assumption.
    cbn [fst snd ending entry_point severity template arguments].
    split; [split; reflexivity|]. split; [|intros Hlt; lia].
    intros _. rewrite !received_insert_eq, !message_staged.
    split; [reflexivity|]. split; [reflexivity|]. split; [reflexivity|].
    intros Hne. apply String.eqb_neq in Hne. rewrite Hne. reflexivity.
Qed.

(** C10. The raw-bytes adapter returns the byte count 0 and a nil error for
    every input, whether the message is gated out or written. The mutex is
    free when the call starts, as it is in every state a run reaches with a
    destination set. *)
Theorem Write_returns_zero_nil env data s :
  ready (opt (logger s)) ->
  mu (logger s) = false ->
  snd (Logger_Write env data s) = Returned (0%Z, None).
Proof.
  intros [[w Hw] [f Hf]] Hmu.
  destruct s as [[o m pool] snk]; cbn in Hw, Hf, Hmu. subst m.
  unfold Logger_Write, Logger_entry, Pool_Get, Entry_write, Entry_format,
    Entry_writer, Entry_release, Pool_Put, Writer_Write, Mutex_Lock,
    Mutex_Unlock, get_opt, mbind, M_bind, mret, M_ret.
  destruct pool as [|e rest]; cbn;
    destruct (stdLevel o <? level o); cbn; try reflexivity;
    rewrite Hf; cbn; rewrite Hw; reflexivity.
Qed.

End Gate.

(** ** Level text codec *)

Section AsciiCase.

Lemma toLowerASCII_keeps_range c :
  (N_of_ascii (toLowerASCII c) <? 128) = (N_of_ascii c <? 128).
Proof. destruct c as [[] [] [] [] [] [] [] []]; vm_compute; reflexivity. Qed.

Lemma toLowerASCII_idem c : toLowerASCII (toLowerASCII c) = toLowerASCII c.
Proof. destruct c as [[] [] [] [] [] [] [] []]; vm_compute; reflexivity. Qed.

Lemma toLowerASCII_not_upper c : isUpperASCII c = false -> toLowerASCII c = c.
Proof. unfold toLowerASCII. intros ->. reflexivity. Qed.

Lemma all_ascii_lower s : all_ascii (map_string toLowerASCII s) = all_ascii s.
Proof.
  induction s as [|c s IH]; cbn; [reflexivity|].
  rewrite toLowerASCII_keeps_range, IH. reflexivity.
Qed.

(** On ASCII input the scan of [bytes.ToLower] runs to the end and reports
    whether an upper-case letter was seen. *)
Lemma ToLower_scan_ascii s b :
  all_ascii s = true -> ToLower_scan s b = (true, b || has_upper s).
Proof.
  revert b. induction s as [|c s IH]; intros b Hs; cbn in *.
  - rewrite orb_false_r. reflexivity.
  - apply andb_true_iff in Hs as [Hc Hs].
    apply N.ltb_lt in Hc.
    destruct (N.leb_spec 128 (N_of_ascii c)) as [Hge|_]; [lia|].
    rewrite IH by exact Hs. rewrite orb_assoc. reflexivity.
Qed.

Lemma lower_without_upper s :
  has_upper s = false -> map_string toLowerASCII s = s.
Proof.
  induction s as [|c s IH]; cbn; [reflexivity|].
  intros Hu. apply orb_false_iff in Hu as [Hc Hs].
  rewrite toLowerASCII_not_upper, IH by assumption. reflexivity.
Qed.

End AsciiCase.

Section Codec.
Context `{GoLib}.

(** On ASCII input [bytes.ToLower] lowers each letter and never consults
    the Unicode tables. *)
Lemma bytes_ToLower_ascii s :
  all_ascii s = true -> bytes_ToLower s = map_string toLowerASCII s.
Proof.
  intros Hs. unfold bytes_ToLower.
  rewrite ToLower_scan_ascii by exact Hs. cbn.
  destruct (has_upper s) eqn:Hu; cbn; [reflexivity|].
  symmetry. apply lower_without_upper. exact Hu.
Qed.

(** The source's [switch] and the table agree. *)
Lemma unmarshalText_lookup l text :
  Level_unmarshalText l text =
    match lookup_name text with
    | Some L => (L, true)
    | None => (l, false)
    end.
Proof.
  unfold Level_unmarshalText, lookup_name, name_table. cbn.
  repeat match goal with
  | |- context [String.eqb text ?x] =>
      destruct (String.eqb text x); cbn; [reflexivity|]
  end.
  reflexivity.
Qed.

(** A name the table knows keeps its level when lowercased. *)
Lemma lookup_name_lower text L :
  lookup_name text = Some L ->
  lookup_name (map_string toLowerASCII text) = Some L.
Proof.
  unfold lookup_name, name_table. cbn.
  repeat match goal with
  | |- context [String.eqb text ?x] =>
      destruct (String.eqb_spec text x) as [->|_];
        [cbn; intros [= <-]; vm_compute; reflexivity|]
  end.
  cbn. discriminate.
Qed.

Lemma UnmarshalText_spec l0 text :
  Level_UnmarshalText (Some l0) text =
    match decode_spec text with
    | Some L => (Some L, None)
    | None => (Some l0, Some (errUnexpectedLevel text))
    end.
Proof.
  unfold Level_UnmarshalText, decode_spec.
  rewrite unmarshalText_lookup.
  destruct (lookup_name text) as [L|]; [reflexivity|].
  rewrite unmarshalText_lookup.
  destruct (lookup_name (bytes_ToLower text)) as [L|]; reflexivity.
Qed.

Lemma decode_casing name s L :
  casing_of name s = true ->
  all_ascii (map_string toLowerASCII name) = true ->
  lookup_name (map_string toLowerASCII name) = Some L ->
  decode_spec s = Some L.
Proof.
  intros Hc Ha Hl. apply String.eqb_eq in Hc.
  assert (all_ascii s = true) as Hs
    by (rewrite <- all_ascii_lower, Hc; exact Ha).
  unfold decode_spec.
  destruct (lookup_name s) as [L'|] eqn:E.
  - apply lookup_name_lower in E. rewrite Hc in E. congruence.
  - rewrite bytes_ToLower_ascii by exact Hs. rewrite Hc. exact Hl.
Qed.

(** C5. Decoding the name of each of the seven levels gives the level back;
    the decoder tries the text as given and then, when that fails, the
    lowercased text; and every casing of a canonical name decodes to the
    level of that name. *)
Theorem level_text_roundtrip :
  (forall L l0, L ∈ levels ->
     Level_UnmarshalText (Some l0) (LevelName L) = (Some L, None)) /\
  (forall l0 text,
     Level_UnmarshalText (Some l0) text =
       match lookup_name text with
       | Some L => (Some L, None)
       | None =>
           match lookup_name (bytes_ToLower text) with
           | Some L => (Some L, None)
           | None => (Some l0, Some (errUnexpectedLevel text))
           end
       end) /\
  (forall L l0 s, L ∈ levels -> casing_of (LevelName L) s = true ->
     Level_UnmarshalText (Some l0) s = (Some L, None)).
Proof.
  split; [|split].
  - intros L l0 HL. unfold levels in HL.
    repeat (apply elem_of_cons in HL as [->|HL]; [vm_compute; reflexivity|]).
    apply elem_of_nil in HL. contradiction.
  - intros l0 text. rewrite UnmarshalText_spec. unfold decode_spec.
    destruct (lookup_name text); [reflexivity|].
    destruct (lookup_name (bytes_ToLower text)); reflexivity.
  - intros L l0 s HL Hc. rewrite UnmarshalText_spec.
    enough (decode_spec s = Some L) as -> by reflexivity.
    unfold levels in HL.
    repeat (apply elem_of_cons in HL as [->|HL];
            [apply (decode_casing _ _ _ Hc); vm_compute; reflexivity|]).
    apply elem_of_nil in HL. contradiction.
Qed.

(** C6. Decoding into a nil target fails with [errUnmarshalNilLevel];
    decoding a text that matches no name, as given or lowercased, fails with
    an error whose message quotes that text and leaves the target as it
    was; the two errors differ; a text that matches a name decodes with a
    nil error. *)
Theorem level_decode_errors :
  (forall text, Level_UnmarshalText None text = (None, Some errUnmarshalNilLevel)) /\
  (forall l0 text, decode_spec text = None ->
     Level_UnmarshalText (Some l0) text =
       (Some l0, Some (errorString ("unexpected level: " +:+ strconv_Quote text)))) /\
  (forall text, errUnexpectedLevel text <> errUnmarshalNilLevel) /\
  (forall l0 text L, decode_spec text = Some L ->
     Level_UnmarshalText (Some l0) text = (Some L, None)).
Proof.
  split; [|split; [|split]].
  - reflexivity.
  - intros l0 text Hd. rewrite UnmarshalText_spec, Hd. reflexivity.
  - intros text. unfold errUnexpectedLevel, errUnmarshalNilLevel. cbn.
    intros [=].
  - intros l0 text L Hd. rewrite UnmarshalText_spec, Hd. reflexivity.
Qed.

End Codec.

(** ** Formatters *)

Section StringFacts.

Lemma append_nil_l (b : string) : "" +:+ b = b.
Proof. reflexivity. Qed.

Lemma append_cons x (a b : string) : String x a +:+ b = String x (a +:+ b).
Proof. reflexivity. Qed.

Lemma append_assoc (a b c : string) : (a +:+ b) +:+ c = a +:+ (b +:+ c).
Proof.
  induction a as [|x a IH]; [reflexivity|].
  rewrite !append_cons, IH. reflexivity.
Qed.

Lemma append_nil_r (a : string) : a +:+ "" = a.
Proof.
  induction a as [|x a IH]; [reflexivity|].
  rewrite append_cons, IH. reflexivity.
Qed.

Lemma length_append (a b : string) :
  String.length (a +:+ b) = (String.length a + String.length b)%nat.
Proof.
  induction a as [|x a IH]; [reflexivity|].
  rewrite append_cons. cbn. rewrite IH. reflexivity.
Qed.

Lemma trailing_newlines_le s : (trailing_newlines s <= String.length s)%nat.
Proof.
  induction s as [|c s IH]; cbn; [lia|].
  destruct (Nat.eqb _ _ && Ascii.eqb c _); lia.
Qed.

(** Appending a newline adds one to the count. *)
Lemma trailing_newlines_snoc s :
  trailing_newlines (s +:+ newline) = S (trailing_newlines s).
Proof.
  induction s as [|c s IH]; [reflexivity|].
  rewrite append_cons. cbn [trailing_newlines]. rewrite IH, length_append.
  change (String.length newline) with 1%nat.
  replace (String.length s + 1)%nat with (S (String.length s)) by lia.
  cbn [Nat.eqb].
  destruct (Nat.eqb (trailing_newlines s) (String.length s) && Ascii.eqb c _);
    reflexivity.
Qed.

(** What precedes a byte other than newline does not count. *)
Lemma trailing_newlines_after a c b :
  Ascii.eqb c "010" = false ->
  trailing_newlines (a +:+ String c b) = trailing_newlines b.
Proof.
  intros Hc. induction a as [|x a IH].
  - rewrite append_nil_l. cbn [trailing_newlines].
    rewrite Hc, andb_false_r. reflexivity.
  - rewrite append_cons. cbn [trailing_newlines]. rewrite IH, length_append.
    cbn [String.length].
    pose proof (trailing_newlines_le b) as Hle.
    destruct (Nat.eqb_spec (trailing_newlines b)
                (String.length a + S (String.length b))) as [Heq|_]; [lia|].
    reflexivity.
Qed.

End StringFacts.

Section Formatters.
Context `{GoLib}.

Lemma text_basic_ends_with_space e :
  exists x, text_basic e = x +:+ " ".
Proof.
  unfold text_basic.
  eexists. rewrite <- append_assoc. reflexivity.
Qed.

(** What the text formatter leaves in the buffer. *)
Lemma TextFormatter_Format_Buf f e :
  e_Buf (fst (TextFormatter_Format f e)) =
    e_Buf e +:+ (if text_IgnoreBasicFields f then "" else text_basic e)
            +:+ message e +:+ newline.
Proof.
  unfold TextFormatter_Format, message, text_basic, Buf_WriteString.
  destruct (text_IgnoreBasicFields f); cbn.
  - destruct (String.eqb (e_Format e) FmtEmptySeparate); cbn;
      rewrite !append_assoc; reflexivity.
  - destruct (String.eqb (e_File e) ""); cbn;
      destruct (String.eqb (e_Format e) FmtEmptySeparate); cbn;
      rewrite ?append_assoc; cbn; rewrite ?append_assoc; reflexivity.
Qed.

(** C7, as amended. For a record whose buffer is empty the text formatter
    writes the basic fields (unless excluded), then the rendered message,
    then one newline, and reports no error: the output contains the message
    and ends with a newline, and it has one more trailing newline than the
    message has, hence exactly one precisely when the message does not end
    with a newline. *)
Theorem text_format_output f e :
  e_Buf e = "" ->
  let out := e_Buf (fst (TextFormatter_Format f e)) in
  out = (if text_IgnoreBasicFields f then "" else text_basic e)
          +:+ message e +:+ newline /\
  is_substring (message e) out /\
  trailing_newlines out = S (trailing_newlines (message e)) /\
  (trailing_newlines out = 1%nat <-> trailing_newlines (message e) = 0%nat) /\
  snd (TextFormatter_Format f e) = None.
Proof.
  intros Hbuf; cbn zeta.
  rewrite TextFormatter_Format_Buf, Hbuf, append_nil_l.
  assert (trailing_newlines
            ((if text_IgnoreBasicFields f then "" else text_basic e)
               +:+ message e +:+ newline)
          = S (trailing_newlines (message e))) as Hcount.
  { destruct (text_IgnoreBasicFields f).
    - rewrite append_nil_l. apply trailing_newlines_snoc.
    - destruct (text_basic_ends_with_space e) as [x ->].
      rewrite append_assoc, append_cons, append_nil_l.
      rewrite trailing_newlines_after by reflexivity.
      apply trailing_newlines_snoc. }
  split; [reflexivity|]. split; [|split; [|split]].
  - eexists _, _. reflexivity.
  - exact Hcount.
  - rewrite Hcount. split; intros Hn; [injection Hn as Hn|rewrite Hn]; auto.
  - reflexivity.
Qed.

(** When every argument encodes, the loop appends the encodings in order. *)
Lemma encode_args_all buf args :
  Forall (fun a => snd (jsoniter_Encode a) = None) args ->
  encode_args buf args =
    (buf +:+ concat_all ((fun a => fst (jsoniter_Encode a)) <$> args), None).
Proof.
  intros Hok. revert buf. induction Hok as [|a rest Ha _ IH]; intros buf; cbn.
  - rewrite append_nil_r. reflexivity.
  - destruct (jsoniter_Encode a) as [out err]; cbn in *. subst err.
    rewrite IH, append_assoc. reflexivity.
Qed.

(** At the first argument whose encoding fails, the loop stops and returns
    that error; later arguments are not encoded. *)
Lemma encode_args_stops buf done a rest out er :
  Forall (fun a => snd (jsoniter_Encode a) = None) done ->
  jsoniter_Encode a = (out, Some er) ->
  encode_args buf (done ++ a :: rest)%list =
    (buf +:+ concat_all ((fun a => fst (jsoniter_Encode a)) <$> done) +:+ out,
     Some er).
Proof.
  intros Hok Ha. revert buf. induction Hok as [|b done Hb _ IH]; intros buf; cbn.
  - rewrite Ha. reflexivity.
  - destruct (jsoniter_Encode b) as [o e]; cbn in *. subst e.
    rewrite IH, !append_assoc. reflexivity.
Qed.

(** The case in which every argument encodes: with basic fields excluded,
    the JSON formatter appends to the buffer, for an empty template, the
    encoder's output for each argument in argument order, and for a
    non-empty template the template-substituted string itself, with no call
    to the encoder. *)
Theorem json_format_without_basic_fields e :
  let r := JSONFormatter_Format (mkJSONFormatter true) e in
  (e_Format e = FmtEmptySeparate ->
   Forall (fun a => snd (jsoniter_Encode a) = None) (e_Args e) ->
   r = (set_Buf (e_Buf e +:+
                 concat_all ((fun a => fst (jsoniter_Encode a)) <$> e_Args e)) e,
        None)) /\
  (e_Format e <> FmtEmptySeparate ->
   r = (set_Buf (e_Buf e +:+ fmt_Sprintf (e_Format e) (e_Args e)) e, None)).
Proof.
  cbn zeta. unfold JSONFormatter_Format. cbn [json_IgnoreBasicFields negb].
  split.
  - intros -> Hok. cbn. rewrite encode_args_all by exact Hok. reflexivity.
  - intros Hne. apply String.eqb_neq in Hne. rewrite Hne. reflexivity.
Qed.

End Formatters.

(** ** Record lifecycle *)

Section Lifecycle.
Context `{GoLib}.

Lemma entry_clean : clean entry.
Proof. repeat split. Qed.

Lemma reset_clean e : clean (reset e).
Proof. repeat split. Qed.

(** [release] keeps the mapping it is given. *)
Lemma reset_keeps_Map e : e_Map (reset e) = e_Map e.
Proof. reflexivity. Qed.

Lemma acquired_clean s :
  Forall clean (entryPool (logger s)) -> clean (acquired s).
Proof.
  unfold acquired. intros Hpool.
  destruct (entryPool (logger s)) as [|e rest]; [apply entry_clean|].
  apply Forall_cons in Hpool as [He _]. exact He.
Qed.

Lemma tail_clean (pool : list Entry) : Forall clean pool -> Forall clean (tail pool).
Proof. intros Hpool. destruct pool; [constructor|]. apply Forall_cons in Hpool as [_ Hp]. exact Hp. Qed.

(** Every pooled record has an empty buffer and empty per-call fields, and
    every leveled call keeps it so. *)
Lemma run_keeps_pool_clean c env s :
  mu (logger s) = false ->
  ready (opt (logger s)) ->
  Forall clean (entryPool (logger s)) ->
  Forall clean (entryPool (logger (fst (run c env s)))).
Proof.
  intros Hmu [[w Hw] [f Hf]] Hpool.
  destruct (N.lt_ge_cases (severity c) (level (opt (logger s)))) as [Hlt|Hle].
  - rewrite run_gated by exact Hlt. cbn. apply tail_clean, Hpool.
  - rewrite (run_passed c env s w f) by assumption. cbn.
    apply Forall_cons. split; [apply reset_clean | apply tail_clean, Hpool].
Qed.

Lemma New_ready opts : ready (opt (New opts)).
Proof.
  unfold New, initOptions, ready; cbn.
  generalize (apply_opts opts (mkOptions None 0 0 None false)). intros o.
  destruct o as [[w|] lv sl [f|] ec]; cbn; split; eexists; reflexivity.
Qed.

Lemma JSONFormatter_Format_basic e :
  JSONFormatter_Format (mkJSONFormatter false) e =
    (set_Buf (e_Buf e +:+ fst (jsoniter_EncodeMap (json_fields e)))
             (set_Map (json_fields e) e),
     snd (jsoniter_EncodeMap (json_fields e))).
Proof.
  unfold JSONFormatter_Format, json_fields, message. cbn [json_IgnoreBasicFields negb].
  destruct (String.eqb (e_File e) ""), (String.eqb (e_Format e) FmtEmptySeparate);
    cbn [negb];
    match goal with
    | |- context [jsoniter_EncodeMap ?m] => destruct (jsoniter_EncodeMap m)
    end; reflexivity.
Qed.

(** With the caller flag enabled [write] captures nothing. *)
Lemma staged_flag_enabled o env lvl format args e :
  enableCaller o = true ->
  staged o env lvl format args e =
    populate (enter "Entry.write" 237 env) lvl format args e.
Proof. unfold staged. intros ->. reflexivity. Qed.

(** With the flag disabled, [runtime.Caller(2)] in a call entered through a
    public function resolves to the caller of that function, and to the
    sentinel when there is no such frame. *)
Lemma staged_flag_disabled o symbol line env lvl format args e :
  enableCaller o = false ->
  let e' := staged o (enter symbol line env) lvl format args e in
  match stack env with
  | fr :: _ =>
      e_File e' = fr_file fr /\ e_Line e' = fr_line fr /\
      e_Func e' =
        string_from (Z.to_nat (strings_LastIndex (fr_func fr) "/" + 1)) (fr_func fr)
  | [] => e_File e' = "unknown" /\ e_Func e' = "unknown" /\ e_Line e' = e_Line e
  end.
Proof.
  intros Hflag; cbn zeta. unfold staged. rewrite Hflag.
  unfold capture, runtime_Caller, enter; cbn.
  destruct (stack env) as [|fr rest]; cbn; repeat split.
Qed.

(** Under the JSON formatter with basic fields, the record an accepted call
    returns to the pool carries the mapping that was encoded. *)
Lemma json_call_leaves_map c env s w :
  mu (logger s) = false ->
  level (opt (logger s)) <= severity c ->
  position (opt (logger s)) = Some w ->
  formatter (opt (logger s)) = Some (JSON (mkJSONFormatter false)) ->
  exists e rest,
    entryPool (logger (fst (run c env s))) = e :: rest /\
    clean e /\
    e_Map e !! "message" =
      Some (VString (if String.eqb (template c) FmtEmptySeparate
                     then fmt_Sprint (arguments c)
                     else fmt_Sprintf (template c) (arguments c))).
Proof.
  intros Hmu Hle Hw Hf.
  rewrite (run_passed c env s w _ Hmu Hle Hw Hf). cbn [fst logger entryPool Format].
  eexists _, _. split; [reflexivity|]. split; [apply reset_clean|].
  rewrite reset_keeps_Map, JSONFormatter_Format_basic. cbn [fst].
  unfold json_fields. cbn [e_Map set_Buf set_Map].
  rewrite lookup_insert_eq, message_staged. reflexivity.
Qed.

(** C1, on the code. With the minimum at Info, an Info call leaves its
    record in the pool; the Debug call that follows takes that record,
    returns at the gate without writing, and does not put the record back:
    the pool is empty afterwards. *)
Theorem gated_call_drops_record (t1 t2 : Time) :
  let s0 := mkWorld (New [WithLevel InfoLevel]) ∅ in
  let s1 := fst (Logger_Info (mkEnv t1 []) [VString "y"] s0) in
  let r := Logger_Debug (mkEnv t2 []) [VString "x"] s1 in
  length (entryPool (logger s1)) = 1%nat /\
  snd r = Returned tt /\
  sinks (fst r) = sinks s1 /\
  entryPool (logger (fst r)) = [].
Proof.
  cbn zeta. repeat split.
Qed.

(** C2, on the code. The same Info call, from line 10 of [main.go], under
    the text formatter: with the caller flag enabled the line carries no
    call site, with the flag disabled it carries [main.go:10]. *)
Theorem caller_captured_when_flag_disabled (t : Time) :
  let env := mkEnv t [mkFrame "/src/app/main.go" 10 "example.com/app/main.run"] in
  let enabled := mkWorld (New [WithEnableCaller true]) ∅ in
  let disabled := mkWorld (New [WithEnableCaller false]) ∅ in
  received os_Stderr (fst (Logger_Info env [VString "y"] enabled)) =
    [time_Format_RFC3339 t +:+ " Info y" +:+ newline] /\
  received os_Stderr (fst (Logger_Info env [VString "y"] disabled)) =
    [time_Format_RFC3339 t +:+ " Info main.go:10 y" +:+ newline].
Proof.
  cbn zeta.
  change (Logger_Info ?e ?a) with (run (CInfo a) e).
  split.
  - rewrite (run_passed (CInfo _) _ _ os_Stderr (Text (mkTextFormatter false)))
      by (try reflexivity; cbn; lia).
    cbn [fst]. rewrite received_insert_eq. unfold received. cbn [sinks].
    rewrite lookup_empty. cbn [Format default app].
    rewrite TextFormatter_Format_Buf. unfold text_basic.
    cbn -[String.append LevelName pretty newline].
    rewrite LevelName_Info, !append_assoc. reflexivity.
  - rewrite (run_passed (CInfo _) _ _ os_Stderr (Text (mkTextFormatter false)))
      by (try reflexivity; cbn; lia).
    cbn [fst]. rewrite received_insert_eq. unfold received. cbn [sinks].
    rewrite lookup_empty. cbn [Format default app].
    rewrite TextFormatter_Format_Buf. unfold text_basic.
    cbn -[String.append LevelName pretty newline].
    rewrite LevelName_Info, !append_assoc. reflexivity.
Qed.

(** C3, on the code. Under the JSON formatter with basic fields, an Info
    call from line 10 of [main.go] leaves in the pool a record whose buffer
    and per-call fields are empty and whose mapping still holds the five
    entries of that call. After the caller flag is switched, the next Info
    call captures no call site, yet the mapping it encodes still carries the
    [file] and [func] entries of the first call. *)
Theorem released_record_keeps_map (t1 t2 : Time) :
  let main := mkFrame "/src/app/main.go" 10 "example.com/app/main.run" in
  let m1 : gmap string Value :=
    <["message" := VString "a"]> (
    <["func" := VString "main.run"]> (
    <["file" := VString "/src/app/main.go:10"]> (
    <["time" := VString (time_Format_RFC3339 t1)]> (
    <["level" := VString "Info"]> ∅)))) in
  let m2 : gmap string Value :=
    <["message" := VString "b"]> (
    <["time" := VString (time_Format_RFC3339 t2)]> (
    <["level" := VString "Info"]> m1)) in
  let s0 := mkWorld (New [WithFormatter (Some (JSON (mkJSONFormatter false)))]) ∅ in
  let s1 := fst (Logger_Info (mkEnv t1 [main]) [VString "a"] s0) in
  let s2 := mkWorld (Logger_SetOptions [WithEnableCaller true] (logger s1)) (sinks s1) in
  let s3 := fst (Logger_Info (mkEnv t2 [main]) [VString "b"] s2) in
  entryPool (logger s1) = [mkEntry "" m1 InfoLevel t1 "" 0%Z "" "" []] /\
  m1 !! "message" = Some (VString "a") /\
  received os_Stderr s3 =
    [fst (jsoniter_EncodeMap m1); fst (jsoniter_EncodeMap m2)] /\
  m2 !! "file" = Some (VString "/src/app/main.go:10") /\
  m2 !! "func" = Some (VString "main.run").
Proof.
  cbn zeta.
  change (Logger_Info ?e ?a) with (run (CInfo a) e).
  assert (fst (run (CInfo [VString "a"])
                 (mkEnv t1 [mkFrame "/src/app/main.go" 10 "example.com/app/main.run"])
                 (mkWorld (New [WithFormatter (Some (JSON (mkJSONFormatter false)))]) ∅))
          = mkWorld
              (mkLogger
                 (mkOptions (Some os_Stderr) 0 0 (Some (JSON (mkJSONFormatter false))) false)
                 false
                 [mkEntry ""
                    (<["message" := VString "a"]> (
                     <["func" := VString "main.run"]> (
                     <["file" := VString "/src/app/main.go:10"]> (
                     <["time" := VString (time_Format_RFC3339 t1)]> (
                     <["level" := VString "Info"]> ∅)))))
                    InfoLevel t1 "" 0%Z "" "" []])
              (<[os_Stderr :=
                   [fst (jsoniter_EncodeMap
                     (<["message" := VString "a"]> (
                      <["func" := VString "main.run"]> (
                      <["file" := VString "/src/app/main.go:10"]> (
                      <["time" := VString (time_Format_RFC3339 t1)]> (
                      <["level" := VString "Info"]> ∅))))))]]> ∅)) as Hs1.
  { rewrite (run_passed (CInfo _) _ _ os_Stderr (JSON (mkJSONFormatter false)))
      by (try reflexivity; cbn; lia).
    cbn [fst Format]. rewrite JSONFormatter_Format_basic.
    unfold received. cbn [sinks]. rewrite lookup_empty.
    unfold json_fields.
    cbn -[String.append LevelName pretty newline insert].
    rewrite LevelName_Info. reflexivity. }
  rewrite Hs1. cbn [logger entryPool sinks].
  split; [reflexivity|]. split; [vm_compute; reflexivity|]. split.
  - rewrite (run_passed (CInfo _) _ _ os_Stderr (JSON (mkJSONFormatter false)))
      by (try reflexivity; cbn; lia).
    cbn [fst Format]. rewrite JSONFormatter_Format_basic, received_insert_eq.
    unfold received. cbn [sinks]. rewrite lookup_insert_eq.
    unfold json_fields.
    cbn -[String.append LevelName pretty newline insert].
    rewrite LevelName_Info. reflexivity.
  - split; vm_compute; reflexivity.
Qed.

End Lifecycle.

(** * The properties on sample runs *)

Section Samples.
#[local] Existing Instance sampleLib.


Lemma level_text_roundtrip_witness :
  Level_UnmarshalText (Some TraceLevel) (LevelName DebugLevel) = (Some DebugLevel, None) /\
  Level_UnmarshalText (Some TraceLevel) "DEBUG" = (Some DebugLevel, None) /\
  Level_UnmarshalText (Some TraceLevel) "debug" = (Some DebugLevel, None).
Proof.
  assert (DebugLevel ∈ levels) as Hin by (vm_compute; repeat constructor).
  split; [|split].
  - apply (proj1 level_text_roundtrip DebugLevel TraceLevel Hin).
  - apply (proj2 (proj2 level_text_roundtrip) DebugLevel TraceLevel "DEBUG" Hin).
    vm_compute. reflexivity.
  - apply (proj2 (proj2 level_text_roundtrip) DebugLevel TraceLevel "debug" Hin).
    vm_compute. reflexivity.
Defined.

Lemma level_decode_errors_witness :
  Level_UnmarshalText (Some InfoLevel) "verbose" =
    (Some InfoLevel,
     Some (errorString ("unexpected level: " +:+ dquote +:+ "verbose" +:+ dquote))) /\
  Level_UnmarshalText (Some InfoLevel) "WARN" = (Some WarnLevel, None).
Proof.
  split.
  - exact (proj1 (proj2 level_decode_errors) InfoLevel "verbose"
             ltac:(vm_compute; reflexivity)).
  - apply (proj2 (proj2 (proj2 level_decode_errors)) InfoLevel "WARN" WarnLevel).
    vm_compute. reflexivity.
Defined.

Lemma text_format_output_witness :
  let out := e_Buf (fst (TextFormatter_Format (mkTextFormatter false) hello)) in
  out = text_basic hello +:+ message hello +:+ newline /\
  is_substring (message hello) out /\
  trailing_newlines out = S (trailing_newlines (message hello)) /\
  (trailing_newlines out = 1%nat <-> trailing_newlines (message hello) = 0%nat) /\
  snd (TextFormatter_Format (mkTextFormatter false) hello) = None.
Proof.
  exact (text_format_output (mkTextFormatter false) hello eq_refl).
Defined.

(** C7, against the claim as stated. A message that ends with a newline, as
    the lines a standard logger hands to [Write] do, is followed by the
    formatter's own newline: the output ends with two. *)
Lemma text_format_message_with_newline :
  let out := e_Buf (fst (TextFormatter_Format (mkTextFormatter true) newline_ended)) in
  message newline_ended = "x" +:+ newline /\
  out = "x" +:+ newline +:+ newline /\
  trailing_newlines out = 2%nat /\
  trailing_newlines out <> 1%nat.
Proof.
  cbn zeta. split; [vm_compute; reflexivity|]. split; [vm_compute; reflexivity|].
  split; [vm_compute; reflexivity|]. vm_compute. discriminate.
Qed.

Lemma json_format_without_basic_fields_witness :
  JSONFormatter_Format (mkJSONFormatter true) two_args =
    (set_Buf ("" +:+ concat_all ((fun a => fst (jsoniter_Encode a)) <$> e_Args two_args))
             two_args,
     None) /\
  JSONFormatter_Format (mkJSONFormatter true) templated =
    (set_Buf ("" +:+ fmt_Sprintf "done" []) templated, None).
Proof.
  split.
  - apply (proj1 (json_format_without_basic_fields two_args) eq_refl).
    repeat constructor.
  - apply (proj2 (json_format_without_basic_fields templated)).
    vm_compute. discriminate.
Defined.

Lemma panic_call_raises_witness :
  let s := mkWorld (New []) ∅ in
  snd (Logger_Panic quiet [VString "boom"] s) = Panicked (PanicString "boom") /\
  snd (Logger_Panicf quiet "boom" [] s) = Panicked (PanicString "boom").
Proof.
  exact (proj1 (panic_call_raises quiet (mkWorld (New []) ∅) os_Stderr text
                  [VString "boom"] "boom" eq_refl eq_refl eq_refl)).
Defined.

(** C9, against the claim as stated. With the minimum at Fatal a Panic call
    is gated out: nothing reaches the destination, and the panic is raised. *)
Lemma panic_above_threshold_writes_nothing :
  let s := mkWorld (New [WithLevel FatalLevel]) ∅ in
  let r := Logger_Panic quiet [VString "x"] s in
  snd r = Panicked (PanicString "x") /\
  sinks (fst r) = ∅ /\
  received os_Stderr (fst r) = [].
Proof.
  cbn zeta. repeat split.
Qed.

(** Threshold Info and raw level Trace: the bytes are gated out; with the
    default options they are written. Both calls return 0 and nil. *)
Lemma Write_returns_zero_nil_witness :
  snd (Logger_Write quiet "raw" (mkWorld (New [WithLevel InfoLevel]) ∅)) =
    Returned (0%Z, None) /\
  snd (Logger_Write quiet "raw" (mkWorld (New []) ∅)) = Returned (0%Z, None).
Proof.
  split.
  - apply (Write_returns_zero_nil quiet "raw" (mkWorld (New [WithLevel InfoLevel]) ∅)).
    + apply New_ready.
    + reflexivity.
  - apply (Write_returns_zero_nil quiet "raw" (mkWorld (New []) ∅)).
    + apply New_ready.
    + reflexivity.
Defined.

(** The example of the specification: threshold Info, text formatter,
    Debug("x") then Info("y"). One line, for "y", reaches the destination. *)
Example threshold_example :
  let s0 := mkWorld (New [WithLevel InfoLevel]) ∅ in
  let s1 := fst (Logger_Debug from_main [VString "x"] s0) in
  let s2 := fst (Logger_Info from_main [VString "y"] s1) in
  received os_Stderr s1 = [] /\
  received os_Stderr s2 = ["0 Info main.go:10 y" +:+ newline].
Proof. cbn zeta. split; vm_compute; reflexivity. Qed.

(** The example of the specification: Info("a","b") has the message "ab". *)
Example message_example :
  fmt_Sprint [VString "a"; VString "b"] = "ab" /\
  fmt_Sprint [VInt 1; VInt 2; VString "c"; VNil] = "1 2c<nil>".
Proof. split; vm_compute; reflexivity. Qed.

End Samples.

(** * Further properties of the code *)

(** ** Calls on any logger *)

Section Calls.
Context `{GoLib}.

Ltac run_steps :=
  unfold log, Logger_entry, Pool_Get, Entry_write, Entry_format, Entry_writer,
    Entry_release, Pool_Put, Writer_Write, Mutex_Lock, Mutex_Unlock, get_opt,
    panic, os_Exit, mbind, M_bind, mret, M_ret.

(** An accepted call on a logger whose formatter is nil panics in [format],
    before the mutex is touched: the record is out of the pool and nothing
    is written. *)
Lemma log_nil_formatter symbol line env lvl format args s :
  level (opt (logger s)) <= lvl ->
  formatter (opt (logger s)) = None ->
  log symbol line env lvl format args s =
    (mkWorld (mkLogger (opt (logger s)) (mu (logger s))
                       (tail (entryPool (logger s)))) (sinks s),
     Panicked NilDereference).
Proof.
  intros Hle Hf. apply N.ltb_ge in Hle.
  destruct s as [[o m pool] snk]; cbn in *.
  run_steps. destruct pool as [|e rest]; cbn; rewrite Hle; cbn; rewrite Hf; reflexivity.
Qed.

(** With a formatter and a nil destination the panic comes in [writer],
    after formatting and after [mu.Lock()]: the mutex stays held. *)
Lemma log_nil_position symbol line env lvl format args s f :
  mu (logger s) = false ->
  level (opt (logger s)) <= lvl ->
  formatter (opt (logger s)) = Some f ->
  position (opt (logger s)) = None ->
  log symbol line env lvl format args s =
    (mkWorld (mkLogger (opt (logger s)) true (tail (entryPool (logger s))))
             (sinks s),
     Panicked NilDereference).
Proof.
  intros Hmu Hle Hf Hw. apply N.ltb_ge in Hle.
  destruct s as [[o m pool] snk]; cbn in *. subst m.
  run_steps.
  destruct pool as [|e rest]; cbn; rewrite Hle; cbn; rewrite Hf; cbn; rewrite Hw;
    reflexivity.
Qed.

(** [runtime.Caller(2)] in [write] looks past the frame of the function that
    called [write]. *)
Lemma staged_symbol_irrelevant o symbol line symbol' line' env lvl format args e :
  staged o (enter symbol line env) lvl format args e =
  staged o (enter symbol' line' env) lvl format args e.
Proof. reflexivity. Qed.

Lemma log_symbol_irrelevant symbol line symbol' line' env lvl format args s :
  log symbol line env lvl format args s = log symbol' line' env lvl format args s.
Proof.
  destruct (N.lt_ge_cases lvl (level (opt (logger s)))) as [Hlt|Hle].
  - rewrite !log_gated by exact Hlt. reflexivity.
  - destruct (formatter (opt (logger s))) as [f|] eqn:Hf.
    + destruct (mu (logger s)) eqn:Hmu.
      * rewrite !(log_blocked _ _ _ _ _ _ _ f) by assumption. reflexivity.
      * destruct (position (opt (logger s))) as [w|] eqn:Hw.
        -- rewrite !(log_passed _ _ _ _ _ _ _ w f) by assumption. reflexivity.
        -- rewrite !(log_nil_position _ _ _ _ _ _ _ f) by assumption. reflexivity.
    + rewrite !log_nil_formatter by assumption. reflexivity.
Qed.

(** [Write] is [write] at the raw level, followed by [return 0, nil]. *)
Lemma Write_log env data s :
  Logger_Write env data s =
    match log "Logger.Write" 92 env (stdLevel (opt (logger s))) FmtEmptySeparate
              [VString data] s with
    | (s', Returned _) => (s', Returned (0%Z, None))
    | (s', Panicked v) => (s', Panicked v)
    | (s', Exited code) => (s', Exited code)
    | (s', Blocked) => (s', Blocked)
    end.
Proof.
  destruct s as [[o m pool] snk].
  unfold Logger_Write. run_steps.
  destruct pool as [|e rest]; cbn;
    destruct (stdLevel o <? level o); cbn; try reflexivity;
    destruct (formatter o); cbn; try reflexivity;
    destruct m; cbn; try reflexivity;
    destruct (position o); reflexivity.
Qed.

(** Whatever the options and the mutex, [write] leaves the options alone; in
    the pool it removes the acquired record and may add its reset form; and
    it leaves the mutex as it found it, except that it leaves a free mutex
    held when the destination is nil. *)
Lemma log_logger symbol line env lvl format args s :
  let s' := fst (log symbol line env lvl format args s) in
  opt (logger s') = opt (logger s) /\
  (entryPool (logger s') = tail (entryPool (logger s)) \/
   exists e, entryPool (logger s') = reset e :: tail (entryPool (logger s))) /\
  (mu (logger s') = mu (logger s) \/
   mu (logger s') = true /\ position (opt (logger s)) = None).
Proof.
  cbn zeta.
  destruct (N.lt_ge_cases lvl (level (opt (logger s)))) as [Hlt|Hle].
  - rewrite log_gated by exact Hlt.
    split; [reflexivity|]. split; left; reflexivity.
  - destruct (formatter (opt (logger s))) as [f|] eqn:Hf.
    + destruct (mu (logger s)) eqn:Hmu.
      * rewrite (log_blocked _ _ _ _ _ _ _ f) by assumption.
        split; [reflexivity|]. split; left; reflexivity.
      * destruct (position (opt (logger s))) as [w|] eqn:Hw.
        -- rewrite (log_passed _ _ _ _ _ _ _ w f) by assumption.
           split; [reflexivity|]. split; [right; eexists; reflexivity|].
           left; reflexivity.
        -- rewrite (log_nil_position _ _ _ _ _ _ _ f) by assumption.
           split; [reflexivity|]. split; [left; reflexivity|].
           right. split; reflexivity.
    + rewrite log_nil_formatter by assumption.
      split; [reflexivity|]. split; left; reflexivity.
Qed.

Lemma run_state c env s :
  fst (run c env s) =
  fst (log (fst (entry_point c)) (snd (entry_point c)) env (severity c)
           (template c) (arguments c) s).
Proof.
  rewrite run_log. destruct (log _ _ _ _ _ _ s) as [s' [[]|v|code|]]; reflexivity.
Qed.

Lemma Write_state env data s :
  fst (Logger_Write env data s) =
  fst (log "Logger.Write" 92 env (stdLevel (opt (logger s))) FmtEmptySeparate
           [VString data] s).
Proof.
  rewrite Write_log. destruct (log _ _ _ _ _ _ s) as [s' [[]|v|code|]]; reflexivity.
Qed.

(** [SetOptions] with the mutex free, and with the mutex held. *)
Lemma SetOptions_free opts s :
  mu (logger s) = false ->
  SetOptions opts s =
    (mkWorld (mkLogger (apply_opts opts (opt (logger s))) false
                       (entryPool (logger s))) (sinks s),
     Returned tt).
Proof.
  intros Hmu. destruct s as [[o m pool] snk]; cbn in *. subst m. reflexivity.
Qed.

Lemma SetOptions_held opts s :
  mu (logger s) = true -> SetOptions opts s = (s, Blocked).
Proof.
  intros Hmu. destruct s as [[o m pool] snk]; cbn in *. subst m. reflexivity.
Qed.

End Calls.

(** ** Construction and options *)

Section Construction.
Context `{GoLib}.

(** X1. [New] applies the options in order to the zero options and then
    fills a nil destination with standard error and a nil formatter with the
    text formatter that includes basic fields; the other three fields are as
    the options left them, the pool starts empty and the mutex free. So the
    logger [New] returns always has a destination and a formatter, also when
    an option passed nil. *)
Theorem New_fills_defaults (opts : list Option) :
  let o := apply_opts opts zero_options in
  opt (New opts) =
    mkOptions (Some (default os_Stderr (position o))) (level o) (stdLevel o)
              (Some (default (Text (mkTextFormatter false)) (formatter o)))
              (enableCaller o) /\
  entryPool (New opts) = [] /\
  ready (opt (New opts)) /\
  mu (New opts) = false.
Proof.
  cbn zeta. unfold New, initOptions, zero_options, ready; cbn.
  generalize (apply_opts opts (mkOptions None 0 0 None false)). intros o.
  destruct o as [[w|] lv sl [f|] ec]; cbn;
    (split; [reflexivity|]; split; [reflexivity|];
     split; [split; eexists; reflexivity | reflexivity]).
Qed.

(** X2. Options compose by sequential application. An option given last
    decides its field whatever came before, and it leaves the other four
    fields as the earlier options set them. *)
Theorem last_option_wins (opts : list Option) (o : options) pos lvl std fmt caller :
  let before := apply_opts opts o in
  apply_opts (opts ++ [WithPosition pos]) o =
    mkOptions pos (level before) (stdLevel before) (formatter before)
              (enableCaller before) /\
  apply_opts (opts ++ [WithLevel lvl]) o =
    mkOptions (position before) lvl (stdLevel before) (formatter before)
              (enableCaller before) /\
  apply_opts (opts ++ [WithStdLevel std]) o =
    mkOptions (position before) (level before) std (formatter before)
              (enableCaller before) /\
  apply_opts (opts ++ [WithFormatter fmt]) o =
    mkOptions (position before) (level before) (stdLevel before) fmt
              (enableCaller before) /\
  apply_opts (opts ++ [WithEnableCaller caller]) o =
    mkOptions (position before) (level before) (stdLevel before)
              (formatter before) caller.
Proof.
  cbn zeta. unfold apply_opts. rewrite !fold_left_app. cbn.
  repeat split.
Qed.

(** X3. Setting options in two steps is setting them in one step with the
    lists appended; neither the pool nor anything written changes, and
    unlike [New] the step fills in no default. With the mutex free the
    options afterwards are the second list applied to the first list
    applied to the old options; with the mutex held neither form gets past
    [mu.Lock()] and the state stays as it is. *)
Theorem SetOptions_composes (a b : list Option) (s : World) :
  let s1 := fst (SetOptions a s) in
  let s2 := fst (SetOptions b s1) in
  s2 = fst (SetOptions (a ++ b) s) /\
  (mu (logger s) = false ->
     opt (logger s2) = apply_opts b (apply_opts a (opt (logger s))) /\
     snd (SetOptions a s) = Returned tt /\ snd (SetOptions b s1) = Returned tt) /\
  (mu (logger s) = true ->
     s2 = s /\ snd (SetOptions a s) = Blocked /\ snd (SetOptions (a ++ b) s) = Blocked) /\
  entryPool (logger s2) = entryPool (logger s) /\
  sinks s2 = sinks s.
Proof.
  cbn zeta. destruct (mu (logger s)) eqn:Hmu.
  - rewrite (SetOptions_held a s), (SetOptions_held (a ++ b) s) by exact Hmu.
    cbn [fst snd]. rewrite (SetOptions_held b s) by exact Hmu. cbn [fst snd].
    repeat split; intros; discriminate.
  - rewrite (SetOptions_free a s), (SetOptions_free (a ++ b) s) by exact Hmu.
    cbn [fst snd]. rewrite SetOptions_free by reflexivity. cbn.
    unfold apply_opts. rewrite fold_left_app.
    repeat split; intros; discriminate.
Qed.

End Construction.

(** ** Outcomes of calls *)

Section Outcomes.
Context `{GoLib}.

(** X4. The package-level functions behave as the methods on the default
    logger: same state afterwards, same outcome. The frame of the function
    that calls [write] is not the one [runtime.Caller(2)] reports, so the
    captured call site is the caller's in both. *)
Theorem package_functions_as_methods (c : Call) env s :
  std_run c env s = run c env s.
Proof.
  destruct c; cbn [std_run run];
    unfold std_Debug, std_Info, std_Warn, std_Error, std_Panic, std_Fatal,
      std_Debugf, std_Infof, std_Warnf, std_Errorf, std_Panicf, std_Fatalf,
      Logger_Debug, Logger_Info, Logger_Warn, Logger_Error, Logger_Panic,
      Logger_Fatal, Logger_Debugf, Logger_Infof, Logger_Warnf, Logger_Errorf,
      Logger_Panicf, Logger_Fatalf, mbind, M_bind;
    match goal with
    | |- context [log ?sym ?ln env ?lvl ?f ?a s] =>
        match goal with
        | |- context [log ?sym' ?ln' env lvl f a s] =>
            lazymatch sym with
            | sym' => fail
            | _ => rewrite (log_symbol_irrelevant sym ln sym' ln')
            end
        end
    end; reflexivity.
Qed.

(** X5. On a logger with destination and formatter set, and the mutex free
    as it then is in every run, how a leveled call ends depends on the
    function alone, not on the gate and not on the error the formatter
    returns: Debug, Info, Warn, Error and their formatted variants return;
    Panic and Panicf panic with the message; Fatal and Fatalf exit with
    status 1. *)
Theorem leveled_call_outcome (c : Call) env s :
  ready (opt (logger s)) ->
  mu (logger s) = false ->
  snd (run c env s) = ending c.
Proof.
  intros [[w Hw] [f Hf]] Hmu.
  destruct (N.lt_ge_cases (severity c) (level (opt (logger s)))) as [Hlt|Hle].
  - rewrite run_gated by exact Hlt. reflexivity.
  - rewrite (run_passed c env s w f) by assumption. reflexivity.
Qed.

(** X6. The error a formatter returns is dropped: two formatters that leave
    the same record behind, whatever errors they return, lead to the same
    bytes at every sink, the same pool, the same mutex and the same
    outcome. *)
Theorem formatter_error_is_discarded (c : Call) env o m pool snk f g :
  (forall e, fst (Format f e) = fst (Format g e)) ->
  let with_formatter x :=
    mkWorld (mkLogger (WithFormatter (Some x) o) m pool) snk in
  let rf := run c env (with_formatter f) in
  let rg := run c env (with_formatter g) in
  sinks (fst rf) = sinks (fst rg) /\
  entryPool (logger (fst rf)) = entryPool (logger (fst rg)) /\
  mu (logger (fst rf)) = mu (logger (fst rg)) /\
  snd rf = snd rg.
Proof.
  intros Hfg; cbn zeta.
  destruct (N.lt_ge_cases (severity c) (level o)) as [Hlt|Hle].
  - rewrite !run_gated by exact Hlt. repeat split.
  - destruct m.
    + rewrite !run_log.
      rewrite (log_blocked _ _ _ _ _ _ _ f), (log_blocked _ _ _ _ _ _ _ g)
        by (try reflexivity; assumption).
      repeat split.
    + destruct (position o) as [w|] eqn:Hw.
      * rewrite (run_passed c env _ w f), (run_passed c env _ w g)
          by (try reflexivity; assumption).
        cbn. rewrite Hfg. repeat split.
      * rewrite !run_log.
        rewrite (log_nil_position _ _ _ _ _ _ _ f), (log_nil_position _ _ _ _ _ _ _ g)
          by (try reflexivity; assumption).
        repeat split.
Qed.

(** X7. [SetOptions] can leave the logger without a formatter or without a
    destination. A leveled call that passes the gate then panics with the
    runtime's nil dereference, nothing is written and the record it took is
    not put back. Without a formatter the panic comes in [format] and the
    mutex is not touched. With a formatter and without a destination it
    comes in [writer] between [mu.Lock()] and [mu.Unlock()]: the mutex stays
    held, and from then on every leveled call that passes the gate blocks,
    writing nothing, and so does every [SetOptions]. *)
Theorem nil_interface_call_panics (c : Call) env s :
  mu (logger s) = false ->
  level (opt (logger s)) <= severity c ->
  (formatter (opt (logger s)) = None ->
     run c env s =
       (mkWorld (mkLogger (opt (logger s)) false (tail (entryPool (logger s))))
                (sinks s),
        Panicked NilDereference)) /\
  (forall f, formatter (opt (logger s)) = Some f ->
     position (opt (logger s)) = None ->
     let held :=
       mkWorld (mkLogger (opt (logger s)) true (tail (entryPool (logger s))))
               (sinks s) in
     run c env s = (held, Panicked NilDereference) /\
     (forall c' env', level (opt (logger s)) <= severity c' ->
        snd (run c' env' held) = Blocked /\
        sinks (fst (run c' env' held)) = sinks s /\
        mu (logger (fst (run c' env' held))) = true) /\
     (forall opts, SetOptions opts held = (held, Blocked))).
Proof.
  intros Hmu Hle. split.
  - intros Hf. rewrite run_log, log_nil_formatter by assumption.
    rewrite Hmu. reflexivity.
  - intros f Hf Hw; cbn zeta. split; [|split].
    + rewrite run_log, (log_nil_position _ _ _ _ _ _ _ f) by assumption.
      reflexivity.
    + intros c' env' Hle'. rewrite run_log.
      rewrite (log_blocked _ _ _ _ _ _ _ f) by (try reflexivity; assumption).
      repeat split.
    + intros opts. apply SetOptions_held. reflexivity.
Qed.

(** X8. A Fatal or Fatalf call exits with status 1. When the minimum is at
    most Fatal, [write] has run to its end before the exit: the line is at
    the destination and the record is back in the pool, reset. When the
    minimum is above Fatal, nothing is written before the exit. The mutex
    is free when the call starts. *)
Theorem fatal_call_exits env s w f args format :
  mu (logger s) = false ->
  position (opt (logger s)) = Some w ->
  formatter (opt (logger s)) = Some f ->
  let r := Logger_Fatal env args s in
  let rf := Logger_Fatalf env format args s in
  (snd r = Exited 1 /\ snd rf = Exited 1) /\
  (level (opt (logger s)) <= FatalLevel ->
     let e := fst (Format f (staged (opt (logger s)) (enter "Logger.Fatal" 122 env)
                              FatalLevel FmtEmptySeparate args (acquired s))) in
     let ef := fst (Format f (staged (opt (logger s)) (enter "Logger.Fatalf" 148 env)
                               FatalLevel format args (acquired s))) in
     received w (fst r) = (received w s ++ [e_Buf e])%list /\
     received w (fst rf) = (received w s ++ [e_Buf ef])%list /\
     entryPool (logger (fst r)) = reset e :: tail (entryPool (logger s)) /\
     entryPool (logger (fst rf)) = reset ef :: tail (entryPool (logger s))) /\
  (FatalLevel < level (opt (logger s)) ->
     sinks (fst r) = sinks s /\ sinks (fst rf) = sinks s).
Proof.
  intros Hmu Hw Hf; cbn zeta.
  change (Logger_Fatal env args) with (run (CFatal args) env).
  change (Logger_Fatalf env format args) with (run (CFatalf format args) env).
  destruct (N.lt_ge_cases FatalLevel (level (opt (logger s)))) as [Hlt|Hle].
  - rewrite !run_gated by exact Hlt. cbn [fst snd ending].
    split; [split; reflexivity|]. split; [intros Hle; lia|].
    intros _. split; reflexivity.
  - rewrite (run_passed (CFatal args) env s w f),
            (run_passed (CFatalf format args) env s w f) by assumption.
    cbn [fst snd ending entry_point severity template arguments logger entryPool].
    split; [split; reflexivity|]. split; [|intros Hlt; lia].
    intros _. rewrite !received_insert_eq. repeat split.
Qed.

End Outcomes.

(** ** The pool over a run *)

Section PoolRuns.
Context `{GoLib}.

(** X9. On a logger with destination and formatter set and the mutex free,
    a leveled call that passes the gate leaves the pool as large as it
    found it, or with one record if it was empty; a call below the minimum
    leaves it one record smaller, or empty. *)
Theorem pool_size_after_call (c : Call) env s :
  ready (opt (logger s)) ->
  mu (logger s) = false ->
  length (entryPool (logger (fst (run c env s)))) =
    if severity c <? level (opt (logger s))
    then Nat.pred (length (entryPool (logger s)))
    else Nat.max 1 (length (entryPool (logger s))).
Proof.
  intros [[w Hw] [f Hf]] Hmu.
  destruct (N.ltb_spec (severity c) (level (opt (logger s)))) as [Hlt|Hle].
  - rewrite run_gated by exact Hlt. cbn.
    destruct (entryPool (logger s)); reflexivity.
  - rewrite (run_passed c env s w f) by assumption. cbn.
    destruct (entryPool (logger s)) as [|e [|e' rest]]; reflexivity.
Qed.

Lemma log_sound symbol line env lvl format args s :
  sound s -> sound (fst (log symbol line env lvl format args s)).
Proof.
  intros (Hclean & Hlen & Hheld).
  destruct (log_logger symbol line env lvl format args s)
    as (Hopt & Hpool & Hmu).
  unfold sound. rewrite Hopt. split; [|split].
  - destruct Hpool as [-> | [e ->]].
    + apply tail_clean, Hclean.
    + apply Forall_cons. split; [apply reset_clean | apply tail_clean, Hclean].
  - destruct Hpool as [-> | [e ->]];
      destruct (entryPool (logger s)) as [|e0 rest]; cbn in *; lia.
  - destruct Hmu as [-> | [_ Hnil]]; [exact Hheld | intros _; exact Hnil].
Qed.

Lemma perform_sound op s : sound s -> sound (fst (perform op s)).
Proof.
  intros Hs. destruct op as [c env|env data|opts]; cbn [perform].
  - rewrite run_state. apply log_sound, Hs.
  - replace (fst ((Logger_Write env data;; mret tt) s))
      with (fst (Logger_Write env data s)).
    + rewrite Write_state. apply log_sound, Hs.
    + unfold mbind, M_bind, mret, M_ret.
      destruct (Logger_Write env data s) as [s' [r|v|code|]]; reflexivity.
  - destruct (mu (logger s)) eqn:Hmu.
    + rewrite SetOptions_held by exact Hmu. exact Hs.
    + rewrite SetOptions_free by exact Hmu.
      destruct Hs as (Hclean & Hlen & _).
      split; [exact Hclean|]. split; [exact Hlen|]. cbn. discriminate.
Qed.

Lemma perform_all_sound ops s : sound s -> sound (perform_all ops s).
Proof.
  revert s. induction ops as [|op rest IH]; intros s Hs; cbn [perform_all].
  - exact Hs.
  - pose proof (perform_sound op s Hs) as Hs'.
    destruct (perform op s) as [s' [[]|v|code|]]; cbn [fst] in Hs'.
    + apply IH, Hs'.
    + apply IH, Hs'.
    + exact Hs'.
    + exact Hs'.
Qed.

Lemma New_sound opts snk : sound (mkWorld (New opts) snk).
Proof. split; [constructor|]. split; [cbn; lia | cbn; discriminate]. Qed.

(** X10. Whatever a client does with a logger made by [New] - leveled
    calls, raw writes, changes of options, in any order, recovered panics
    included - the pool never holds more than one record, and every record
    in it has an empty buffer and empty arguments, template, file, line and
    function. *)
Theorem pool_invariant_over_runs (opts : list Option) snk (ops : list Op) :
  let s := perform_all ops (mkWorld (New opts) snk) in
  Forall clean (entryPool (logger s)) /\
  (length (entryPool (logger s)) <= 1)%nat.
Proof.
  cbn zeta.
  destruct (perform_all_sound ops _ (New_sound opts snk)) as (Hclean & Hlen & _).
  split; assumption.
Qed.

(** X11. A change of the minimum by [SetOptions] (made with the mutex free)
    governs the next leveled call: below the new minimum it writes nothing,
    at or above it the destination receives exactly one more write. *)
Theorem SetOptions_level_takes_effect (c : Call) env s w f lvl :
  mu (logger s) = false ->
  position (opt (logger s)) = Some w ->
  formatter (opt (logger s)) = Some f ->
  let s1 := fst (SetOptions [WithLevel lvl] s) in
  let s2 := fst (run c env s1) in
  (severity c < lvl -> sinks s2 = sinks s) /\
  (lvl <= severity c ->
     exists line, received w s2 = (received w s ++ [line])%list).
Proof.
  intros Hmu Hw Hf; cbn zeta. rewrite SetOptions_free by exact Hmu. cbn [fst].
  split.
  - intros Hlt. rewrite run_gated by exact Hlt. reflexivity.
  - intros Hle. rewrite (run_passed c env _ w f) by (try reflexivity; assumption).
    cbn [fst]. eexists. apply received_insert_eq.
Qed.

(** X12. The raw-bytes adapter is gated by comparing the raw level with the
    minimum for leveled calls. Below it nothing is written. Otherwise (the
    mutex being free) the
    destination receives exactly one more write, rendered from a record
    whose level is the raw level, whose template is empty and whose message
    is the data, byte for byte. *)
Theorem Write_destination env data s w f :
  mu (logger s) = false ->
  position (opt (logger s)) = Some w ->
  formatter (opt (logger s)) = Some f ->
  let o := opt (logger s) in
  let s' := fst (Logger_Write env data s) in
  let e := staged o (enter "Logger.Write" 92 env) (stdLevel o) FmtEmptySeparate
             [VString data] (acquired s) in
  (stdLevel o < level o -> sinks s' = sinks s) /\
  (level o <= stdLevel o ->
     received w s' = (received w s ++ [e_Buf (fst (Format f e))])%list /\
     e_Level e = stdLevel o /\ message e = data).
Proof.
  intros Hmu Hw Hf; cbn zeta. rewrite Write_state. split.
  - intros Hlt. rewrite log_gated by exact Hlt. reflexivity.
  - intros Hle. rewrite (log_passed _ _ _ _ _ _ _ w f) by assumption.
    cbn [fst]. rewrite received_insert_eq, message_staged.
    split; [reflexivity|]. split.
    + unfold staged. destruct (negb (enableCaller (opt (logger s))));
        [unfold capture; destruct (runtime_Caller _ 2)|]; reflexivity.
    + cbn. unfold fmt_Sprint, doPrint, fmt_v. cbn.
      rewrite append_nil_l, append_nil_r. reflexivity.
Qed.

End PoolRuns.

(** ** Rendered lines *)

Section Lines.
Context `{GoLib}.

Lemma staged_Buf o env lvl format args e :
  e_Buf (staged o env lvl format args e) = e_Buf e.
Proof.
  unfold staged. destruct (negb (enableCaller o));
    [unfold capture; destruct (runtime_Caller _ 2)|]; reflexivity.
Qed.

Lemma staged_Map o env lvl format args e :
  e_Map (staged o env lvl format args e) = e_Map e.
Proof.
  unfold staged. destruct (negb (enableCaller o));
    [unfold capture; destruct (runtime_Caller _ 2)|]; reflexivity.
Qed.

(** The basic fields of the record of a call, for a clean pooled record. *)
Lemma text_basic_staged o symbol line env lvl format args e :
  clean e ->
  text_basic (staged o (enter symbol line env) lvl format args e) =
    time_Format_RFC3339 (now env) +:+ " " +:+ LevelName lvl
      +:+ call_site o env +:+ " ".
Proof.
  intros (_ & _ & Hfile & Hline & _ & _).
  unfold text_basic, staged, call_site.
  destruct (enableCaller o); cbn [negb].
  - cbn. rewrite Hfile. cbn. rewrite !append_assoc. reflexivity.
  - unfold capture, runtime_Caller, enter. cbn.
    destruct (stack env) as [|fr rest]; cbn.
    + rewrite Hline, !append_assoc. reflexivity.
    + destruct (String.eqb (fr_file fr) ""); cbn; rewrite !append_assoc; reflexivity.
Qed.

(** X13. The line of a leveled call under the text formatter, for a call
    that passes the gate with the mutex free and takes a clean record: the
    time in RFC 3339, a
    space, the level name, the call site when it was captured (a space, the
    file shortened, a colon, the line; [unknown:0] when there is no caller
    frame), a space - all of this unless basic fields are excluded - then
    the message and a newline. Nothing of an earlier call is in it. *)
Theorem text_line_of_call (c : Call) env s w tf :
  mu (logger s) = false ->
  position (opt (logger s)) = Some w ->
  formatter (opt (logger s)) = Some (Text tf) ->
  level (opt (logger s)) <= severity c ->
  clean (acquired s) ->
  received w (fst (run c env s)) =
    (received w s ++
     [(if text_IgnoreBasicFields tf then ""
       else time_Format_RFC3339 (now env) +:+ " " +:+ LevelName (severity c)
              +:+ call_site (opt (logger s)) env +:+ " ")
      +:+ call_message c +:+ newline])%list.
Proof.
  intros Hmu Hw Hf Hle Hclean.
  rewrite (run_passed c env s w (Text tf)) by assumption.
  cbn [fst Format]. rewrite received_insert_eq.
  rewrite TextFormatter_Format_Buf, staged_Buf, message_staged.
  destruct Hclean as (Hbuf & Hrest). rewrite Hbuf, append_nil_l.
  destruct (text_IgnoreBasicFields tf); [reflexivity|].
  rewrite text_basic_staged by (split; assumption). reflexivity.
Qed.

(** X14. What the JSON formatter with basic fields leaves in the mapping:
    [level], [time] and [message] are those of the record at hand, whatever
    the mapping held; [file] and [func] are set when the record has a file
    and are otherwise left as they were; no other key is touched. The
    mapping is what is encoded into the buffer, and the encoder's error is
    the formatter's. *)
Theorem json_record_fields (e : Entry) :
  let r := JSONFormatter_Format (mkJSONFormatter false) e in
  let m := e_Map (fst r) in
  m !! "level" = Some (VString (LevelName (e_Level e))) /\
  m !! "time" = Some (VString (time_Format_RFC3339 (e_Time e))) /\
  m !! "message" = Some (VString (message e)) /\
  (e_File e <> "" ->
     m !! "file" = Some (VString (e_File e +:+ ":" +:+ pretty (e_Line e))) /\
     m !! "func" = Some (VString (e_Func e))) /\
  (e_File e = "" ->
     m !! "file" = e_Map e !! "file" /\ m !! "func" = e_Map e !! "func") /\
  (forall k, k ∉ ["level"; "time"; "file"; "func"; "message"] ->
     m !! k = e_Map e !! k) /\
  e_Buf (fst r) = e_Buf e +:+ fst (jsoniter_EncodeMap m) /\
  snd r = snd (jsoniter_EncodeMap m).
Proof.
  cbn zeta. rewrite JSONFormatter_Format_basic. cbn [fst snd e_Map e_Buf set_Buf set_Map].
  unfold json_fields.
  destruct (String.eqb_spec (e_File e) "") as [Hfile|Hfile]; cbn [negb].
  - repeat split; try (intros; simplify_map_eq; reflexivity); try contradiction.
    intros k Hk. rewrite !lookup_insert_ne by set_solver. reflexivity.
  - repeat split; try (intros; simplify_map_eq; reflexivity); try contradiction.
    intros k Hk. rewrite !lookup_insert_ne by set_solver. reflexivity.
Qed.

(** X15. With basic fields excluded and no template, the JSON formatter
    stops at the first argument the encoder rejects: it returns that error,
    the buffer holds the encodings of the arguments before it and whatever
    the failing call wrote, and the arguments after it are not encoded. *)
Theorem json_format_stops_at_error (e : Entry) done a rest out er :
  e_Format e = FmtEmptySeparate ->
  e_Args e = (done ++ a :: rest)%list ->
  Forall (fun a => snd (jsoniter_Encode a) = None) done ->
  jsoniter_Encode a = (out, Some er) ->
  JSONFormatter_Format (mkJSONFormatter true) e =
    (set_Buf (e_Buf e +:+ concat_all ((fun a => fst (jsoniter_Encode a)) <$> done)
                      +:+ out) e,
     Some er).
Proof.
  intros Hfmt Hargs Hdone Ha.
  unfold JSONFormatter_Format. cbn [json_IgnoreBasicFields negb].
  rewrite Hfmt, Hargs. cbn.
  rewrite (encode_args_stops _ _ _ _ _ _ Hdone Ha). reflexivity.
Qed.

(** X16. A leveled call without arguments and without template, under the
    JSON formatter with basic fields excluded, still makes one write: of
    zero bytes. *)
Theorem json_call_without_arguments (c : Call) env s w :
  mu (logger s) = false ->
  position (opt (logger s)) = Some w ->
  formatter (opt (logger s)) = Some (JSON (mkJSONFormatter true)) ->
  level (opt (logger s)) <= severity c ->
  clean (acquired s) ->
  template c = FmtEmptySeparate ->
  arguments c = [] ->
  received w (fst (run c env s)) = (received w s ++ [""])%list.
Proof.
  intros Hmu Hw Hf Hle Hclean Htpl Hargs.
  rewrite (run_passed c env s w _ Hmu Hle Hw Hf).
  cbn [fst Format]. rewrite received_insert_eq.
  rewrite Htpl, Hargs.
  destruct Hclean as (Hbuf & _).
  unfold staged. destruct (negb (enableCaller (opt (logger s))));
    [unfold capture; destruct (runtime_Caller _ 2)|];
    unfold JSONFormatter_Format; cbn; rewrite Hbuf; reflexivity.
Qed.

End Lines.

(** ** More on the level codec *)

Section CodecMore.
Context `{GoLib}.

Lemma map_lower_idem s :
  map_string toLowerASCII (map_string toLowerASCII s) = map_string toLowerASCII s.
Proof.
  induction s as [|c s IH]; cbn; [reflexivity|].
  rewrite toLowerASCII_idem, IH. reflexivity.
Qed.

(** Every entry of the table is a casing of the name of its level. *)
Lemma lookup_name_sound text L :
  lookup_name text = Some L ->
  L ∈ levels /\
  map_string toLowerASCII text = map_string toLowerASCII (LevelName L).
Proof.
  unfold lookup_name, name_table. cbn.
  repeat match goal with
  | |- context [String.eqb text ?x] =>
      destruct (String.eqb_spec text x) as [->|_];
        [cbn; intros [= <-]; split;
           [unfold levels; set_solver | vm_compute; reflexivity]|]
  end.
  cbn. discriminate.
Qed.

(** X17. The decoder accepts nothing else: when it returns a nil error the
    level it stored is one of the seven, and an ASCII text it accepted is a
    casing of that level's name. *)
Theorem decode_accepts_only_casings (l0 L : Level) (text : string) :
  Level_UnmarshalText (Some l0) text = (Some L, None) ->
  L ∈ levels /\
  (all_ascii text = true -> casing_of (LevelName L) text = true).
Proof.
  rewrite UnmarshalText_spec. unfold decode_spec.
  destruct (lookup_name text) as [L1|] eqn:E1.
  - intros [= <-]. destruct (lookup_name_sound _ _ E1) as [Hin Hcase].
    split; [exact Hin|]. intros _. apply String.eqb_eq. exact Hcase.
  - destruct (lookup_name (bytes_ToLower text)) as [L2|] eqn:E2; [|discriminate].
    intros [= <-]. destruct (lookup_name_sound _ _ E2) as [Hin Hcase].
    split; [exact Hin|]. intros Hascii. apply String.eqb_eq.
    rewrite bytes_ToLower_ascii in Hcase by exact Hascii.
    rewrite map_lower_idem in Hcase. exact Hcase.
Qed.

Lemma LevelName_outside l : l ∉ levels -> LevelName l = "".
Proof.
  intros Hout. unfold LevelName, LevelMapping.
  rewrite !lookup_insert_ne, lookup_empty; first reflexivity;
    intros <-; apply Hout; unfold levels; set_solver.
Qed.

(** X18. The name table covers the seven levels and nothing else: a level
    has a non-empty name exactly when it is one of the seven, the seven
    names differ from each other, and the empty name of any other level
    does not decode, so the round trip holds for the seven levels only. *)
Theorem LevelName_known (l : Level) :
  (l ∈ levels <-> LevelName l <> "") /\
  (forall l', l ∈ levels -> LevelName l = LevelName l' -> l = l') /\
  (l ∉ levels ->
     forall l0, Level_UnmarshalText (Some l0) (LevelName l) =
                  (Some l0, Some (errUnexpectedLevel ""))).
Proof.
  assert (forall k, k ∈ levels -> LevelName k <> "") as Hnamed.
  { intros k Hk. unfold levels in Hk.
    repeat (apply elem_of_cons in Hk as [->|Hk]; [vm_compute; discriminate|]).
    apply elem_of_nil in Hk. contradiction. }
  split; [|split].
  - split; [apply Hnamed|].
    intros Hne. destruct (decide (l ∈ levels)) as [Hin|Hout]; [exact Hin|].
    exfalso. apply Hne, LevelName_outside, Hout.
  - intros l' Hin Heq.
    destruct (decide (l' ∈ levels)) as [Hin'|Hout'].
    + unfold levels in Hin, Hin'.
      repeat (apply elem_of_cons in Hin as [->|Hin];
              [repeat (apply elem_of_cons in Hin' as [->|Hin'];
                       [first [reflexivity | vm_compute in Heq; discriminate]|]);
               apply elem_of_nil in Hin'; contradiction|]).
      apply elem_of_nil in Hin. contradiction.
    + exfalso. apply (Hnamed l Hin). rewrite Heq.
      apply LevelName_outside, Hout'.
  - intros Hout l0. rewrite (LevelName_outside l Hout).
    rewrite UnmarshalText_spec. vm_compute. reflexivity.
Qed.

End CodecMore.

(** ** File and function names of the call site *)

Section SiteNames.
Context `{GoLib}.

Lemma get_string_from n s j :
  String.get j (string_from n s) = String.get (n + j) s.
Proof.
  revert s. induction n as [|n IH]; intros s; [reflexivity|].
  destruct s as [|c s]; cbn; [destruct j; reflexivity|]. apply IH.
Qed.

Lemma get_beyond s j : (String.length s <= j)%nat -> String.get j s = None.
Proof.
  revert j. induction s as [|c s IH]; intros j Hj; [destruct j; reflexivity|].
  destruct j as [|j]; cbn in *; [lia|]. apply IH. lia.
Qed.

Lemma string_from_suffix n s : is_suffix (string_from n s) s.
Proof.
  revert s. induction n as [|n IH]; intros s.
  - exists "". reflexivity.
  - destruct s as [|c s]; [exists ""; reflexivity|].
    destruct (IH s) as [pre Hpre]. exists (String c pre).
    cbn [string_from]. rewrite append_cons, <- Hpre. reflexivity.
Qed.

Lemma get_split k s c :
  String.get k s = Some c ->
  exists pre, s = pre +:+ String c (string_from (S k) s).
Proof.
  revert s. induction k as [|k IH]; intros s Hget.
  - destruct s as [|c0 s]; [discriminate|]. cbn in Hget. injection Hget as ->.
    exists "". reflexivity.
  - destruct s as [|c0 s]; [discriminate|]. cbn in Hget.
    destruct (IH s Hget) as [pre Hpre]. exists (String c0 pre).
    rewrite append_cons.
    change (string_from (S (S k)) (String c0 s)) with (string_from (S k) s).
    rewrite <- Hpre. reflexivity.
Qed.

(** The loop stops at the last slash at an index between 1 and [i]. *)
Lemma short_loop_spec file i :
  (short_loop file i = file /\
   forall k, (1 <= k <= i)%nat -> String.get k file <> Some "/"%char) \/
  (exists k, (1 <= k <= i)%nat /\ String.get k file = Some "/"%char /\
             short_loop file i = string_from (S k) file /\
             forall j, (k < j <= i)%nat -> String.get j file <> Some "/"%char).
Proof.
  induction i as [|i IH]; [left; split; [reflexivity|intros k Hk; lia]|].
  cbn [short_loop].
  assert (String.get (S i) file <> Some "/"%char ->
          (short_loop file i = file /\
           forall k, (1 <= k <= S i)%nat -> String.get k file <> Some "/"%char) \/
          (exists k, (1 <= k <= S i)%nat /\ String.get k file = Some "/"%char /\
                     short_loop file i = string_from (S k) file /\
                     forall j, (k < j <= S i)%nat ->
                               String.get j file <> Some "/"%char)) as Hstep.
  { intros Hne. destruct IH as [[Heq Hno]|(k & Hk & Hget & Heq & Hno)].
    - left. split; [exact Heq|]. intros k Hk.
      destruct (Nat.eq_dec k (S i)) as [->|Hne']; [exact Hne|]. apply Hno. lia.
    - right. exists k. split; [lia|]. split; [exact Hget|]. split; [exact Heq|].
      intros j Hj. destruct (Nat.eq_dec j (S i)) as [->|Hne']; [exact Hne|].
      apply Hno. lia. }
  destruct (String.get (S i) file) as [c|] eqn:Hget.
  - destruct (Ascii.eqb_spec c "/") as [->|Hc].
    + right. exists (S i). split; [lia|]. split; [exact Hget|].
      split; [reflexivity|]. intros j Hj. lia.
    + apply Hstep. intros [= Heq]. contradiction.
  - apply Hstep. discriminate.
Qed.

(** X19. The file name the text formatter prints is the part of the path
    after its last slash, the byte at index 0 not being looked at: it is a
    suffix of the path with no slash after its first byte; when it is
    shorter than the path it has no slash at all and follows a slash; and a
    path whose only slash, if any, is its first byte is printed whole. *)
Theorem short_of_basename (file : string) :
  is_suffix (short_of file) file /\
  no_slash_from 1 (short_of file) /\
  (short_of file <> file ->
     no_slash_from 0 (short_of file) /\
     exists pre, file = pre +:+ "/" +:+ short_of file) /\
  (no_slash_from 1 file -> short_of file = file).
Proof.
  unfold short_of.
  assert (forall j, (String.length file - 1 < j)%nat ->
                    String.get j file <> Some "/"%char) as Hbeyond.
  { intros j Hj. rewrite get_beyond by lia. discriminate. }
  destruct (short_loop_spec file (String.length file - 1))
    as [[Heq Hno]|(k & Hk & Hget & Heq & Hno)]; rewrite Heq.
  - split; [exists ""; reflexivity|]. split.
    + intros j Hj.
      destruct (Nat.le_gt_cases j (String.length file - 1));
        [apply Hno; lia | apply Hbeyond; lia].
    + split; [intros Hne; contradiction | reflexivity].
  - assert (no_slash_from 0 (string_from (S k) file)) as Hnone.
    { intros j _. rewrite get_string_from.
      destruct (Nat.le_gt_cases (S k + j) (String.length file - 1));
        [apply Hno; lia | apply Hbeyond; lia]. }
    split; [apply string_from_suffix|]. split.
    + intros j _. apply Hnone. lia.
    + split.
      * intros _. split; [exact Hnone|]. apply get_split. exact Hget.
      * intros Hfile. exfalso. apply (Hfile k); [lia | exact Hget].
Qed.

(** [strings.LastIndex(s, "/")] scanned from position [pos]. *)
Lemma LastIndex_scan_slash s pos found :
  (LastIndex_scan "/" s pos found = found /\ no_slash_from 0 s) \/
  (exists k, String.get k s = Some "/"%char /\
             LastIndex_scan "/" s pos found = (pos + Z.of_nat k)%Z /\
             no_slash_from (S k) s).
Proof.
  revert pos found. induction s as [|c s IH]; intros pos found.
  - left. split; [reflexivity|]. intros j _. destruct j; discriminate.
  - cbn [LastIndex_scan].
    replace (String.prefix "/" (String c s))
      with (if ascii_dec "/" c then true else false)
      by (change (String.prefix "/" (String c s))
            with (if ascii_dec "/" c then String.prefix "" s else false);
          destruct (ascii_dec "/" c); [destruct s|]; reflexivity).
    destruct (ascii_dec "/" c) as [<-|Hc].
    + destruct (IH (pos + 1)%Z pos) as [[Heq Hno]|(k & Hget & Heq & Hno)].
      * right. exists 0%nat. split; [reflexivity|].
        split; [rewrite Heq; lia|].
        intros j Hj. destruct j as [|j]; [lia|]. apply Hno. lia.
      * right. exists (S k). split; [exact Hget|]. split; [rewrite Heq; lia|].
        intros j Hj. destruct j as [|j]; [lia|]. apply Hno. lia.
    + destruct (IH (pos + 1)%Z found) as [[Heq Hno]|(k & Hget & Heq & Hno)].
      * left. split; [exact Heq|].
        intros j _. destruct j as [|j]; [intros [= Heq']; auto|]. apply Hno. lia.
      * right. exists (S k). split; [exact Hget|]. split; [rewrite Heq; lia|].
        intros j Hj. destruct j as [|j]; [lia|]. apply Hno. lia.
Qed.

(** X20. What the capture step stores. When the frame two levels up
    resolves, the record gets its file and line, and for the function the
    part of the runtime's name after its last slash: a suffix of that name
    with no slash in it, the whole name when it has none. When it does not
    resolve, file and function are [unknown] and the line is left as it
    was. *)
Theorem captured_site (env : Env) (e : Entry) :
  let e' := capture env e in
  match runtime_Caller env 2 with
  | Some fr =>
      e_File e' = fr_file fr /\ e_Line e' = fr_line fr /\
      is_suffix (e_Func e') (fr_func fr) /\
      no_slash_from 0 (e_Func e') /\
      (no_slash_from 0 (fr_func fr) -> e_Func e' = fr_func fr)
  | None =>
      e_File e' = "unknown" /\ e_Func e' = "unknown" /\ e_Line e' = e_Line e
  end.
Proof.
  cbn zeta. unfold capture.
  destruct (runtime_Caller env 2) as [fr|]; [|repeat split].
  cbn [e_File e_Line e_Func set_caller].
  split; [reflexivity|]. split; [reflexivity|].
  unfold strings_LastIndex.
  destruct (LastIndex_scan_slash (fr_func fr) 0 (-1))
    as [[Heq Hno]|(k & Hget & Heq & Hno)]; rewrite Heq.
  - cbn. split; [exists ""; reflexivity|]. split; [exact Hno|reflexivity].
  - replace (Z.to_nat (0 + Z.of_nat k + 1)) with (S k) by lia.
    split; [apply string_from_suffix|]. split.
    + intros j _. rewrite get_string_from. apply Hno. lia.
    + intros Hnone. exfalso. apply (Hnone k); [lia | exact Hget].
Qed.

End SiteNames.

(** ** What reaches the destination *)

Section Destination.
Context `{GoLib}.

(** A clean record is staged as a blank one that carries its mapping. *)
Lemma staged_clean o env lvl format args e :
  clean e ->
  staged o env lvl format args e = call_record o env lvl format args (e_Map e).
Proof.
  destruct e as [buf m l t file line func fmt a]. unfold clean; cbn.
  intros (-> & -> & -> & -> & -> & ->). reflexivity.
Qed.

(** In a sound state a destination implies a free mutex. *)
Lemma sound_free s w :
  sound s -> position (opt (logger s)) = Some w -> mu (logger s) = false.
Proof.
  intros (_ & _ & Hheld) Hw. destruct (mu (logger s)); [|reflexivity].
  rewrite Hheld in Hw by reflexivity. discriminate.
Qed.

(** A state a run from [New] reaches with a destination set has its mutex
    free: the hypothesis of the theorems on accepted calls. *)
Lemma reachable_free opts snk ops w :
  position (opt (logger (perform_all ops (mkWorld (New opts) snk)))) = Some w ->
  mu (logger (perform_all ops (mkWorld (New opts) snk))) = false.
Proof.
  apply sound_free, perform_all_sound, New_sound.
Qed.

(** C4. In every state a client can bring a logger made by [New] to, with a
    destination and a formatter set: a leveled call below the configured
    minimum leaves every sink as it was, so no byte reaches the destination;
    a leveled call at or above the minimum makes the destination receive
    exactly one more write and changes no other sink. What is written is
    what the formatter renders, into an empty buffer, for the record of this
    call: its level, time, template, arguments and captured call site, with
    the mapping the acquired record carried. *)
Theorem leveled_call_reaches_destination (opts : list Option) snk (ops : list Op)
    (c : Call) env w f :
  let s := perform_all ops (mkWorld (New opts) snk) in
  position (opt (logger s)) = Some w ->
  formatter (opt (logger s)) = Some f ->
  let s' := fst (run c env s) in
  let record :=
    call_record (opt (logger s))
      (enter (fst (entry_point c)) (snd (entry_point c)) env)
      (severity c) (template c) (arguments c) (e_Map (acquired s)) in
  e_Buf record = "" /\
  (severity c < level (opt (logger s)) -> sinks s' = sinks s) /\
  (level (opt (logger s)) <= severity c ->
     received w s' = (received w s ++ [e_Buf (fst (Format f record))])%list /\
     forall w', w <> w' -> received w' s' = received w' s).
Proof.
  cbn zeta. intros Hw Hf.
  pose proof (perform_all_sound ops _ (New_sound opts snk)) as Hsound.
  set (s := perform_all ops (mkWorld (New opts) snk)) in *.
  pose proof (sound_free s w Hsound Hw) as Hmu.
  destruct Hsound as (Hclean & _ & _).
  split; [apply staged_Buf|]. split.
  - intros Hlt. rewrite run_gated by exact Hlt. reflexivity.
  - intros Hle. rewrite (run_passed c env s w f) by assumption. cbn [fst].
    rewrite (staged_clean _ _ _ _ _ _ (acquired_clean s Hclean)). split.
    + apply received_insert_eq.
    + intros w' Hne. apply received_insert_ne. exact Hne.
Qed.

(** What the loop of the JSON formatter leaves in the buffer and returns. *)
Lemma encode_args_prefix buf args :
  encode_args buf args =
    (buf +:+ concat_all ((fun a => fst (jsoniter_Encode a)) <$> encoded_prefix args),
     first_error args).
Proof.
  revert buf. induction args as [|a rest IH]; intros buf; cbn.
  - rewrite append_nil_r. reflexivity.
  - destruct (jsoniter_Encode a) as [out [er|]] eqn:E; cbn; rewrite ?E; cbn.
    + rewrite append_nil_r. reflexivity.
    + rewrite IH, append_assoc. reflexivity.
Qed.

Lemma encoded_prefix_is_prefix args :
  exists rest, args = (encoded_prefix args ++ rest)%list /\
               (first_error args = None -> rest = []).
Proof.
  induction args as [|a rest IH]; cbn.
  - exists []. split; reflexivity.
  - destruct (snd (jsoniter_Encode a)) as [er|].
    + exists rest. split; [reflexivity | discriminate].
    + destruct IH as (rest' & Heq & Hnone). exists rest'.
      split; [cbn; rewrite <- Heq; reflexivity | exact Hnone].
Qed.

Lemma encoded_prefix_all args :
  Forall (fun a => snd (jsoniter_Encode a) = None) args ->
  encoded_prefix args = args /\ first_error args = None.
Proof.
  induction 1 as [|a rest Ha _ [IH1 IH2]]; cbn; [split; reflexivity|].
  rewrite Ha, IH1, IH2. split; reflexivity.
Qed.

(** C8, as amended. With basic fields excluded and an empty template, the
    JSON formatter serializes the arguments as independent values, one
    encoder call per argument in argument order, up to and including the
    first argument whose encoding fails: it returns that argument's error,
    and the arguments after it are not serialized; when every argument
    encodes, all of them are serialized and no error is returned. With a
    non-empty template the template-substituted string is written as it is,
    with no call to the encoder. *)
Theorem json_format_serializes_until_error (e : Entry) :
  let r := JSONFormatter_Format (mkJSONFormatter true) e in
  (e_Format e = FmtEmptySeparate ->
     r = (set_Buf (e_Buf e +:+
                   concat_all ((fun a => fst (jsoniter_Encode a))
                                 <$> encoded_prefix (e_Args e))) e,
          first_error (e_Args e)) /\
     (exists rest, e_Args e = (encoded_prefix (e_Args e) ++ rest)%list /\
                   (first_error (e_Args e) = None -> rest = [])) /\
     (Forall (fun a => snd (jsoniter_Encode a) = None) (e_Args e) ->
        encoded_prefix (e_Args e) = e_Args e /\ first_error (e_Args e) = None)) /\
  (e_Format e <> FmtEmptySeparate ->
     r = (set_Buf (e_Buf e +:+ fmt_Sprintf (e_Format e) (e_Args e)) e, None)).
Proof.
  cbn zeta. unfold JSONFormatter_Format. cbn [json_IgnoreBasicFields negb].
  split.
  - intros ->. cbn. rewrite encode_args_prefix.
    split; [reflexivity|]. split;
      [apply encoded_prefix_is_prefix | apply encoded_prefix_all].
  - intros Hne. apply String.eqb_neq in Hne. rewrite Hne. reflexivity.
Qed.

End Destination.

(** * The further properties on sample runs *)

Section MoreSamples.
#[local] Existing Instance sampleLib.

(** Threshold Info, after one served call: Debug writes nothing, Info
    writes one line, into the record the first call left in the pool. *)
Lemma leveled_call_reaches_destination_witness :
  sinks (fst (run (CDebug [VString "x"]) from_main served)) = sinks served /\
  received os_Stderr (fst (run (CInfo [VString "y"]) from_main served)) =
    (received os_Stderr served ++ ["0 Info main.go:10 y" +:+ newline])%list.
Proof.
  split.
  - apply (proj1 (proj2 (leveled_call_reaches_destination [WithLevel InfoLevel] ∅
                    [OpCall (CInfo [VString "first"]) from_main]
                    (CDebug [VString "x"]) from_main os_Stderr text
                    eq_refl eq_refl))).
    vm_compute. reflexivity.
  - exact (proj1 (proj2 (proj2 (leveled_call_reaches_destination
                    [WithLevel InfoLevel] ∅
                    [OpCall (CInfo [VString "first"]) from_main]
                    (CInfo [VString "y"]) from_main os_Stderr text
                    eq_refl eq_refl))
                  ltac:(vm_compute; discriminate))).
Defined.

Lemma json_format_serializes_until_error_witness :
  JSONFormatter_Format (mkJSONFormatter true) two_args =
    (set_Buf ("" +:+ concat_all ((fun a => fst (jsoniter_Encode a))
                                   <$> encoded_prefix (e_Args two_args))) two_args,
     first_error (e_Args two_args)) /\
  JSONFormatter_Format (mkJSONFormatter true) templated =
    (set_Buf ("" +:+ fmt_Sprintf "done" []) templated, None).
Proof.
  split.
  - exact (proj1 (proj1 (json_format_serializes_until_error two_args) eq_refl)).
  - apply (proj2 (json_format_serializes_until_error templated)).
    vm_compute. discriminate.
Defined.

(** C8, against the claim as stated. Of the arguments "a", a channel and
    "b", only "a" is serialized: the loop returns at the channel with the
    encoder's error, and "b", which would encode, is not in the buffer. *)
Lemma json_format_skips_after_error :
  let r := JSONFormatter_Format (mkJSONFormatter true) with_channel in
  e_Buf (fst r) = dquote +:+ "a" +:+ dquote +:+ newline /\
  snd r = Some (errorString "unsupported type") /\
  jsoniter_Encode (VString "b") = (dquote +:+ "b" +:+ dquote +:+ newline, None) /\
  e_Buf (fst r) <>
    concat_all ((fun a => fst (jsoniter_Encode a)) <$> e_Args with_channel).
Proof.
  cbn zeta. split; [vm_compute; reflexivity|]. split; [vm_compute; reflexivity|].
  split; [vm_compute; reflexivity|]. vm_compute. discriminate.
Qed.

Lemma leveled_call_outcome_witness :
  snd (run (CInfo [VString "y"]) quiet fresh) = Returned tt /\
  snd (run (CFatalf "bye" []) quiet fresh) = Exited 1.
Proof.
  split.
  - exact (leveled_call_outcome (CInfo [VString "y"]) quiet fresh (New_ready [])
             eq_refl).
  - exact (leveled_call_outcome (CFatalf "bye" []) quiet fresh (New_ready [])
             eq_refl).
Defined.

Lemma formatter_error_is_discarded_witness :
  let with_formatter x :=
    mkWorld (mkLogger (WithFormatter (Some x) (opt (logger fresh))) false []) ∅ in
  sinks (fst (run (CInfo []) quiet (with_formatter silent))) =
    sinks (fst (run (CInfo []) quiet (with_formatter erring))) /\
  entryPool (logger (fst (run (CInfo []) quiet (with_formatter silent)))) =
    entryPool (logger (fst (run (CInfo []) quiet (with_formatter erring)))) /\
  mu (logger (fst (run (CInfo []) quiet (with_formatter silent)))) =
    mu (logger (fst (run (CInfo []) quiet (with_formatter erring)))) /\
  snd (run (CInfo []) quiet (with_formatter silent)) =
    snd (run (CInfo []) quiet (with_formatter erring)).
Proof.
  exact (formatter_error_is_discarded (CInfo []) quiet (opt (logger fresh)) false
           [] ∅ silent erring (fun e => eq_refl)).
Defined.

(** Without a formatter the call panics and the mutex stays free; without
    a destination it panics holding the mutex, and the next call and the
    next [SetOptions] block. *)
Lemma nil_interface_call_panics_witness :
  run (CInfo [VString "y"]) quiet unformatted =
    (mkWorld (mkLogger (opt (logger unformatted)) false []) ∅,
     Panicked NilDereference) /\
  let held := mkWorld (mkLogger (opt (logger undirected)) true []) ∅ in
  run (CInfo [VString "y"]) quiet undirected = (held, Panicked NilDereference) /\
  snd (run (CWarn [VString "z"]) quiet held) = Blocked /\
  SetOptions [WithPosition (Some os_Stderr)] held = (held, Blocked).
Proof.
  split.
  - apply (proj1 (nil_interface_call_panics (CInfo [VString "y"]) quiet unformatted
                    eq_refl ltac:(vm_compute; discriminate))).
    reflexivity.
  - cbn zeta.
    pose proof (proj2 (nil_interface_call_panics (CInfo [VString "y"]) quiet
                         undirected eq_refl ltac:(vm_compute; discriminate))
                  text eq_refl eq_refl) as (Hrun & Hnext & Hset).
    split; [exact Hrun|]. split.
    + exact (proj1 (Hnext (CWarn [VString "z"]) quiet
                      ltac:(vm_compute; discriminate))).
    + exact (Hset [WithPosition (Some os_Stderr)]).
Defined.

Lemma fatal_call_exits_witness :
  snd (Logger_Fatal quiet [VString "bye"] fresh) = Exited 1 /\
  snd (Logger_Fatalf quiet "bye" [] fresh) = Exited 1.
Proof.
  exact (proj1 (fatal_call_exits quiet fresh os_Stderr text [VString "bye"] "bye"
                  eq_refl eq_refl eq_refl)).
Defined.

Lemma pool_size_after_call_witness :
  length (entryPool (logger (fst (run (CInfo [VString "y"]) quiet fresh)))) = 1%nat.
Proof.
  exact (pool_size_after_call (CInfo [VString "y"]) quiet fresh (New_ready [])
           eq_refl).
Defined.

Lemma SetOptions_level_takes_effect_witness :
  sinks (fst (run (CDebug [VString "x"]) quiet
                (fst (SetOptions [WithLevel InfoLevel] fresh)))) = sinks fresh.
Proof.
  apply (proj1 (SetOptions_level_takes_effect (CDebug [VString "x"]) quiet fresh
                  os_Stderr text InfoLevel eq_refl eq_refl eq_refl)).
  vm_compute. reflexivity.
Defined.

Lemma Write_destination_witness :
  let e := staged (opt (logger fresh)) (enter "Logger.Write" 92 from_main)
             TraceLevel FmtEmptySeparate [VString "raw"] (acquired fresh) in
  received os_Stderr (fst (Logger_Write from_main "raw" fresh)) =
    (received os_Stderr fresh ++ [e_Buf (fst (Format text e))])%list /\
  e_Level e = TraceLevel /\ message e = "raw".
Proof.
  apply (proj2 (Write_destination from_main "raw" fresh os_Stderr text
                  eq_refl eq_refl eq_refl)).
  vm_compute. discriminate.
Defined.

Lemma text_line_of_call_witness :
  received os_Stderr (fst (run (CWarn [VString "disk"; VInt 9]) from_main fresh)) =
    (received os_Stderr fresh ++ ["0 Warn main.go:10 disk9" +:+ newline])%list.
Proof.
  exact (text_line_of_call (CWarn [VString "disk"; VInt 9]) from_main fresh
           os_Stderr (mkTextFormatter false) eq_refl eq_refl eq_refl
           ltac:(vm_compute; discriminate) entry_clean).
Defined.

Lemma json_record_fields_witness :
  let m := e_Map (fst (JSONFormatter_Format (mkJSONFormatter false) sited)) in
  m !! "file" = Some (VString "/src/app/main.go:10") /\
  m !! "func" = Some (VString "main.run").
Proof.
  apply (proj1 (proj2 (proj2 (proj2 (json_record_fields sited))))).
  vm_compute. discriminate.
Defined.

Lemma json_format_stops_at_error_witness :
  JSONFormatter_Format (mkJSONFormatter true) with_channel =
    (set_Buf ("" +:+ concat_all ((fun a => fst (jsoniter_Encode a)) <$> [VString "a"])
                 +:+ "") with_channel,
     Some (errorString "unsupported type")).
Proof.
  apply (json_format_stops_at_error with_channel [VString "a"]
           (VOpaque "0xc000012345") [VString "b"] "" (errorString "unsupported type")
           eq_refl eq_refl).
  - repeat constructor.
  - reflexivity.
Defined.

Lemma json_call_without_arguments_witness :
  let s := mkWorld (New [WithFormatter (Some (JSON (mkJSONFormatter true)))]) ∅ in
  received os_Stderr (fst (run (CInfo []) quiet s)) =
    (received os_Stderr s ++ [""])%list.
Proof.
  apply (json_call_without_arguments (CInfo []) quiet
           (mkWorld (New [WithFormatter (Some (JSON (mkJSONFormatter true)))]) ∅)
           os_Stderr eq_refl eq_refl eq_refl); try reflexivity.
  - vm_compute. discriminate.
  - apply entry_clean.
Defined.

Lemma decode_accepts_only_casings_witness :
  ErrorLevel ∈ levels /\
  (all_ascii "eRRoR" = true -> casing_of (LevelName ErrorLevel) "eRRoR" = true).
Proof.
  apply (decode_accepts_only_casings TraceLevel ErrorLevel "eRRoR").
  vm_compute. reflexivity.
Defined.

Lemma LevelName_known_witness :
  (forall l', LevelName WarnLevel = LevelName l' -> WarnLevel = l') /\
  (forall l0, Level_UnmarshalText (Some l0) (LevelName 7) =
                (Some l0, Some (errUnexpectedLevel ""))).
Proof.
  split.
  - intros l'. apply (proj1 (proj2 (LevelName_known WarnLevel)) l').
    unfold levels. repeat constructor.
  - apply (proj2 (proj2 (LevelName_known 7))).
    unfold levels. intros Hin.
    repeat (apply elem_of_cons in Hin as [Hin|Hin]; [discriminate Hin|]).
    apply elem_of_nil in Hin. exact Hin.
Defined.

Lemma short_of_basename_witness :
  no_slash_from 0 (short_of "/src/app/main.go") /\
  exists pre, "/src/app/main.go" = pre +:+ "/" +:+ short_of "/src/app/main.go".
Proof.
  apply (proj1 (proj2 (proj2 (short_of_basename "/src/app/main.go")))).
  vm_compute. discriminate.
Defined.

Lemma captured_site_witness :
  let env := enter "Entry.write" 237 (enter "Logger.Info" 105 from_main) in
  let e' := capture env entry in
  e_File e' = "/src/app/main.go" /\ e_Line e' = 10%Z /\
  is_suffix (e_Func e') "example.com/app/main.run" /\
  no_slash_from 0 (e_Func e') /\
  (no_slash_from 0 "example.com/app/main.run" ->
     e_Func e' = "example.com/app/main.run").
Proof.
  exact (captured_site (enter "Entry.write" 237 (enter "Logger.Info" 105 from_main))
           entry).
Defined.

End MoreSamples.
